(** * fanekews: a fact-checking chat bot

    Shallow embedding of [src/fanekews.py] and the properties of its
    fact-checking pipeline: evidence retrieval ([search_web]), the
    orchestrator ([fact_check]) with its verdict cache, and the message
    handler ([handle_message]) with its per-user rate limit.

    - A Python [str] is a list of Unicode code points, so that [len],
      slicing and [str.strip] count what Python counts.
    - The two module-level dictionaries [user_last_request] and
      [fact_cache] are finite maps carried in an explicit program state.
    - The search provider, the model provider and the chat transport are
      an environment that answers each call from the history of calls made
      so far; every call, and every access to one of the dictionaries, is
      appended to a log kept in the state.
    - Exceptions are results of a state-and-error monad.  Errors of the
      providers and of the transport are of class [Exception]; the one
      [BaseException] that occurs is the cancellation of the awaited model
      call at the deadline of [asyncio.wait_for].
    - Time stamps ([time.time()], a float) are rationals.
    - Messages are handled one after the other, as the application built
      in [main] does: it does not enable concurrent updates. *)

From Stdlib Require Import ZArith QArith Lqa List String Ascii Lia.
From stdpp Require Import gmap list.

Local Open Scope Z_scope.

(** ** Python strings *)

Module Py.

(** A [str] is a sequence of code points. *)
Abbreviation str := (list N).

(** An ASCII literal of the source, as a [str]. *)
Definition lit (s : string) : str :=
  List.map N_of_ascii (list_ascii_of_string s).

(** [len(s)] *)
Definition len {A} (s : list A) : Z := Z.of_nat (length s).

(** [str.isspace] on one code point: the characters Python's
    [str.strip()] removes. *)
Definition isspace (c : N) : bool :=
  ((9 <=? c) && (c <=? 13) || (28 <=? c) && (c <=? 32)
   || (c =? 133) || (c =? 160) || (c =? 5760)
   || (8192 <=? c) && (c <=? 8202)
   || (c =? 8232) || (c =? 8233) || (c =? 8239) || (c =? 8287)
   || (c =? 12288))%N.

Fixpoint lstrip (s : str) : str :=
  match s with
  | c :: s' => if isspace c then lstrip s' else s
  | [] => []
  end.

Definition rstrip (s : str) : str := rev (lstrip (rev s)).

(** [s.strip()] *)
Definition strip (s : str) : str := rstrip (lstrip s).

(** [sep.join(parts)] *)
Fixpoint join (sep : str) (parts : list str) : str :=
  match parts with
  | [] => []
  | [p] => p
  | p :: ps => p ++ sep ++ join sep ps
  end.

(** [s[:n]] for a non-negative constant [n] *)
Definition slice_to (n : Z) (s : str) : str := take (Z.to_nat n) s.

(** Truth value of a string: [if s:] *)
Definition truthy (s : str) : bool :=
  match s with [] => false | _ => true end.

(** [html.escape(s)] with its default [quote=True]: ampersand, less-than,
    greater-than, double quote (34) and single quote (39) are replaced,
    in that order, by their entities.  None of the entities contains a
    character replaced later, so the five successive [replace] calls
    amount to one pass over the string. *)
Definition escape_char (c : N) : str :=
  if (c =? 38)%N then lit "&amp;"
  else if (c =? 60)%N then lit "&lt;"
  else if (c =? 62)%N then lit "&gt;"
  else if (c =? 34)%N then lit "&quot;"
  else if (c =? 39)%N then lit "&#x27;"
  else [c].

Definition escape (s : str) : str := flat_map escape_char s.

End Py.

Import Py.

(** ** Module constants *)

Definition GPT_MODEL : str := lit "gpt-4o-mini".
Definition MAX_INPUT_LEN : Z := 500.
Definition RATE_LIMIT_SECONDS : Q := 5%Q.
Definition MAX_EVIDENCE_LEN : Z := 6000.

Definition nl : string := String (ascii_of_nat 10) EmptyString.

Definition SYSTEM_PROMPT : str :=
  lit (nl ++ "You are a professional fact-checking AI." ++ nl ++ nl
       ++ "Analyze the claim using the provided evidence." ++ nl
       ++ "Respond strictly in this format:" ++ nl ++ nl
       ++ "<b>Verdict:</b> True / False / Misleading / Partially True / Insufficient Evidence" ++ nl
       ++ "<b>Confidence:</b> 0-100%" ++ nl
       ++ "<b>Explanation:</b> Short reasoning based only on the evidence." ++ nl
       ++ "Do not add extra commentary." ++ nl)%string.

(** The literals of [search_web]. *)
Definition SUMMARY_PREFIX : str := lit "Summary: ".
Definition SEPARATOR : str := lit (nl ++ nl ++ "---" ++ nl ++ nl)%string.
Definition TRUNCATION_MARKER : str := lit (nl ++ "... [truncated]")%string.

(** The literals of [fact_check]. *)
Definition VERDICT_LINE (label : string) : str :=
  lit ("<b>Verdict:</b> " ++ label)%string.
Definition CONFIDENCE_LINE (pct : string) : str :=
  lit ("<b>Confidence:</b> " ++ pct)%string.
Definition EXPLANATION_LINE (why : string) : str :=
  lit ("<b>Explanation:</b> " ++ why)%string.

Definition INSUFFICIENT_EVIDENCE : str :=
  VERDICT_LINE "Insufficient Evidence" ++ lit nl
  ++ CONFIDENCE_LINE "0%" ++ lit nl
  ++ EXPLANATION_LINE "No reliable sources found.".

Definition AI_FAILED : str := lit "AI processing failed. Please try again later.".
Definition SOURCES_HEADER : str := lit (nl ++ nl ++ "<b>Sources:</b>" ++ nl)%string.

(** The bullet of a source line, as the source file spells it: the three
    code points U+00E2 U+20AC U+00A2 followed by a space. *)
Definition BULLET : str := [226; 8364; 162; 32]%N.

(** The literals of [handle_message]. *)
Definition MSG_INVALID : str := lit "Please send a valid claim.".
(** The f-string of line 172, with [MAX_INPUT_LEN] filled in. *)
Definition MSG_TOO_LONG : str := lit "Message too long (max 500 characters).".
Definition MSG_WAIT : str := lit "Please wait before sending another request.".
Definition MSG_THINKING : str := lit "News-checking... Please wait.".
Definition MSG_TIMEOUT : str := lit " Request timed out. Please try again.".
Definition MSG_ERROR : str := lit " Error processing request.".

(** ** The search provider's answer

    [tavily_client.search] returns a dictionary with an optional
    ["answer"] and a list of ["results"], each with an optional ["url"]
    and ["content"].  A missing key and [None] are both [None] here. *)

Record result := { url : option str; content : option str }.
Record response := { answer : option str; results : list result }.

(** [if d.get(k):] for a string-valued key *)
Definition present (o : option str) : option str :=
  match o with
  | Some s => if truthy s then Some s else None
  | None => None
  end.

(** Lines 79-93 of [search_web]: the loop that fills [parts] and [urls]. *)
Definition collect (resp : response) : list str * list str :=
  let parts :=
    match present resp.(answer) with
    | Some a => [SUMMARY_PREFIX ++ a]
    | None => []
    end in
  fold_left
    (fun '(parts, urls) r =>
       let urls := match present r.(url) with
                   | Some u => urls ++ [u]
                   | None => urls
                   end in
       let parts := match present r.(content) with
                    | Some c => parts ++ [strip c]
                    | None => parts
                    end in
       (parts, urls))
    resp.(results) (parts, []).

(** Lines 95-98: join, then cap the joined string. *)
Definition cap (evidence : str) : str :=
  if len evidence >? MAX_EVIDENCE_LEN
  then slice_to MAX_EVIDENCE_LEN evidence ++ TRUNCATION_MARKER
  else evidence.

(** Lines 79-100: what [search_web] returns for an answer [resp]. *)
Definition bundle (resp : response) : str * list str :=
  let '(parts, urls) := collect resp in
  (cap (join SEPARATOR parts), urls).

(** ** Exceptions, events, state *)

(** [asyncio.TimeoutError] is an [Exception]; [asyncio.CancelledError] is
    a [BaseException] only, which [except Exception] lets through. *)
Inductive exn :=
| Exception (what : str)
| TimeoutError
| CancelledError.

Definition is_Exception (e : exn) : bool :=
  match e with CancelledError => false | _ => true end.

(** The request of [openai_client.responses.create]. *)
Record request := {
  model : str;
  temperature : Z;
  max_output_tokens : Z;
  system_content : str;
  user_content : str;
  metadata_user_id : Z
}.

(** Every call that leaves the handler's own code, and every access to one
    of the two shared dictionaries, in program order. *)
Inductive event :=
| TavilySearch (query : str)
| ResponsesCreate (req : request)
| ReplyText (text : str)
| SendAction
| EditText (text : str)
| RateGet (user_id : Z)
| RateSet (user_id : Z) (now : Q)
| CacheGet (claim : str)
| CacheSet (claim verdict : str).

Definition provider_call (ev : event) : bool :=
  match ev with
  | TavilySearch _ | ResponsesCreate _ => true
  | _ => false
  end.

Definition model_call (ev : event) : bool :=
  match ev with ResponsesCreate _ => true | _ => false end.

Record state := {
  user_last_request : gmap Z Q;
  fact_cache : gmap str str;
  log : list event
}.

(** Module load: both dictionaries empty. *)
Definition initial : state :=
  {| user_last_request := ∅; fact_cache := ∅; log := [] |}.

Definition emit (ev : event) (s : state) : state :=
  {| user_last_request := s.(user_last_request);
     fact_cache := s.(fact_cache);
     log := s.(log) ++ [ev] |}.

(** ** The environment

    What the outside world answers to a call, given everything that
    happened before it. *)

(** The search call returns a dictionary or raises an error of class
    [Exception]. *)
Inductive search_outcome :=
| SearchOk (resp : response)
| SearchRaises (what : str).

(** The awaited model call returns text, raises, or is still pending when
    the caller's deadline expires and the coroutine is cancelled. *)
Inductive model_outcome :=
| ModelOk (output_text : str)
| ModelRaises (what : str)
| ModelDeadline.

Record env := {
  tavily : list event -> str -> search_outcome;
  openai : list event -> request -> model_outcome;
  (** [Some what]: the Telegram call raises *)
  telegram : list event -> event -> option str
}.

(** ** The monad: environment, state, exceptions *)

Inductive outcome (A : Type) :=
| Return (a : A)
| Raise (e : exn).
Arguments Return {A} a.
Arguments Raise {A} e.

Definition M (A : Type) : Type := env -> state -> outcome A * state.

#[export] Instance M_ret : MRet M := fun A a _ s => (Return a, s).

#[export] Instance M_bind : MBind M := fun A B f m E s =>
  match m E s with
  | (Return a, s') => f a E s'
  | (Raise e, s') => (Raise e, s')
  end.

(** [try: body / except ...: handler]; [handlers e = None] when no clause
    matches [e]. *)
Definition try_except {A} (body : M A) (handlers : exn -> option (M A)) : M A :=
  fun E s =>
    match body E s with
    | (Raise e, s') =>
        match handlers e with
        | Some h => h E s'
        | None => (Raise e, s')
        end
    | r => r
    end.

(** [asyncio.wait_for(m, timeout)]: a coroutine cancelled at the deadline
    surfaces as [TimeoutError]. *)
Definition wait_for {A} (m : M A) : M A :=
  fun E s =>
    match m E s with
    | (Raise CancelledError, s') => (Raise TimeoutError, s')
    | r => r
    end.

(** *** Primitive calls *)

Definition tavily_client_search (query : str) : M response :=
  fun E s =>
    match E.(tavily) s.(log) query with
    | SearchOk resp => (Return resp, emit (TavilySearch query) s)
    | SearchRaises what => (Raise (Exception what), emit (TavilySearch query) s)
    end.

Definition openai_responses_create (req : request) : M str :=
  fun E s =>
    match E.(openai) s.(log) req with
    | ModelOk output_text => (Return output_text, emit (ResponsesCreate req) s)
    | ModelRaises what => (Raise (Exception what), emit (ResponsesCreate req) s)
    | ModelDeadline => (Raise CancelledError, emit (ResponsesCreate req) s)
    end.

Definition telegram_call (ev : event) : M unit :=
  fun E s =>
    match E.(telegram) s.(log) ev with
    | None => (Return tt, emit ev s)
    | Some what => (Raise (Exception what), emit ev s)
    end.

Definition reply_text (text : str) : M unit := telegram_call (ReplyText text).
Definition send_action : M unit := telegram_call SendAction.
Definition edit_text (text : str) : M unit := telegram_call (EditText text).

(** [user_last_request[user_id]] on a [defaultdict(float)]: a missing key
    is inserted with [0.0] and that value is returned. *)
Definition rate_get (user_id : Z) : M Q :=
  fun _ s =>
    match s.(user_last_request) !! user_id with
    | Some t => (Return t, emit (RateGet user_id) s)
    | None =>
        (Return 0%Q,
         emit (RateGet user_id)
           {| user_last_request := <[user_id := 0%Q]> s.(user_last_request);
              fact_cache := s.(fact_cache);
              log := s.(log) |})
    end.

(** [user_last_request[user_id] = now] *)
Definition rate_set (user_id : Z) (now : Q) : M unit :=
  fun _ s =>
    (Return tt,
     emit (RateSet user_id now)
       {| user_last_request := <[user_id := now]> s.(user_last_request);
          fact_cache := s.(fact_cache);
          log := s.(log) |}).

(** [fact_cache[claim] if claim in fact_cache] *)
Definition cache_get (claim : str) : M (option str) :=
  fun _ s => (Return (s.(fact_cache) !! claim), emit (CacheGet claim) s).

(** [fact_cache[claim] = verdict] *)
Definition cache_set (claim verdict : str) : M unit :=
  fun _ s =>
    (Return tt,
     emit (CacheSet claim verdict)
       {| user_last_request := s.(user_last_request);
          fact_cache := <[claim := verdict]> s.(fact_cache);
          log := s.(log) |}).

(** ** The program *)

(** [search_web], lines 67-104. *)
Definition search_web (query : str) : M (str * list str) :=
  try_except
    (resp ← tavily_client_search query;
     mret (bundle resp))
    (fun e => if is_Exception e then Some (mret ([], [])) else None).

(** Lines 143-146: the sources section. *)
Definition add_sources (verdict_text : str) (urls : list str) : str :=
  match urls with
  | [] => verdict_text
  | _ => verdict_text ++ SOURCES_HEADER
         ++ join (lit nl) (List.map (fun u => BULLET ++ escape u) urls)
  end.

Definition mk_request (claim evidence : str) (user_id : Z) : request :=
  {| model := GPT_MODEL;
     temperature := 0;
     max_output_tokens := 600;
     system_content := SYSTEM_PROMPT;
     user_content := lit ("Claim:" ++ nl) ++ claim
                     ++ lit (nl ++ nl ++ "Evidence:" ++ nl) ++ evidence;
     metadata_user_id := user_id |}.

(** [fact_check], lines 107-151. *)
Definition fact_check (claim : str) (user_id : Z) : M str :=
  cached ← cache_get claim;
  match cached with
  | Some verdict => mret verdict
  | None =>
      '(evidence, urls) ← search_web claim;
      if negb (truthy (strip evidence)) then mret INSUFFICIENT_EVIDENCE
      else
        answered ← try_except
          (output_text ← openai_responses_create (mk_request claim evidence user_id);
           mret (Some (strip output_text)))
          (fun e => if is_Exception e then Some (mret None) else None);
        match answered with
        | None => mret AI_FAILED
        | Some verdict_text =>
            let verdict_text := add_sources verdict_text urls in
            _ ← cache_set claim verdict_text;
            mret verdict_text
        end
  end.

(** The part of a Telegram [Update] the handler reads. *)
Record update := {
  message_text : option str;
  effective_user_id : Z
}.

(** [handle_message], lines 161-204; [now] is what [time.time()] returns
    on line 176.  Time stamps are rationals: every float is one, and the
    subtraction and comparison of line 177 are taken exactly. *)
Definition handle_message (upd : update) (now : Q) : M unit :=
  let claim := strip (default [] upd.(message_text)) in
  let user_id := upd.(effective_user_id) in
  if negb (truthy claim) then reply_text MSG_INVALID
  else if len claim >? MAX_INPUT_LEN then reply_text MSG_TOO_LONG
  else
    last ← rate_get user_id;
    if Qlt_le_dec (now - last) RATE_LIMIT_SECONDS then reply_text MSG_WAIT
    else
      _ ← rate_set user_id now;
      _ ← send_action;
      _ ← reply_text MSG_THINKING;
      try_except
        (result ← wait_for (fact_check claim user_id);
         edit_text result)
        (fun e =>
           match e with
           | TimeoutError => Some (edit_text MSG_TIMEOUT)
           | Exception _ => Some (edit_text MSG_ERROR)
           | CancelledError => None
           end).

(** ** Runs *)

(** The events a run appended to the log. *)
Definition new_events (before after : state) : list event :=
  drop (length before.(log)) after.(log).

(** The state after a run of calls that touch neither dictionary. *)
Definition emits (evs : list event) (s : state) : state :=
  {| user_last_request := s.(user_last_request);
     fact_cache := s.(fact_cache);
     log := s.(log) ++ evs |}.

(** The state after [fact_cache[claim] = verdict]. *)
Definition stored (claim verdict : str) (s : state) : state :=
  emit (CacheSet claim verdict)
    {| user_last_request := s.(user_last_request);
       fact_cache := <[claim := verdict]> s.(fact_cache);
       log := s.(log) |}.

(** What the retriever hands back for a provider outcome. *)
Definition retrieved (o : search_outcome) : str * list str :=
  match o with
  | SearchOk resp => bundle resp
  | SearchRaises _ => ([], [])
  end.

(** The claim string a message is turned into (line 163). *)
Definition claim_of (upd : update) : str :=
  strip (default [] upd.(message_text)).

(** Lines 166-174: the text passes input validation. *)
Definition valid (upd : update) : bool :=
  truthy (claim_of upd) && negb (len (claim_of upd) >? MAX_INPUT_LEN).

(** [user_last_request[user_id]] as line 177 reads it: a missing entry is
    the epoch, [0.0]. *)
Definition last_accepted (s : state) (user_id : Z) : Q :=
  default 0%Q (s.(user_last_request) !! user_id).

(** Lines 185-204 of [handle_message]: what an accepted request runs. *)
Definition serve (claim : str) (user_id : Z) : M unit :=
  _ ← send_action;
  _ ← reply_text MSG_THINKING;
  try_except
    (result ← wait_for (fact_check claim user_id);
     edit_text result)
    (fun e =>
       match e with
       | TimeoutError => Some (edit_text MSG_TIMEOUT)
       | Exception _ => Some (edit_text MSG_ERROR)
       | CancelledError => None
       end).


(** ** Vocabulary of the properties *)

(** Calls to the chat transport. *)
Definition transport (ev : event) : Prop :=
  match ev with
  | ReplyText _ | SendAction | EditText _ => True
  | _ => False
  end.

(** The calls the orchestrator makes for [claim]. *)
Definition orchestrated (claim : str) (ev : event) : Prop :=
  match ev with
  | CacheGet k | CacheSet k _ | TavilySearch k => k = claim
  | ResponsesCreate _ => True
  | _ => False
  end.

(** Every cache key and search query an event names is [claim]. *)
Definition keyed_by (claim : str) (ev : event) : Prop :=
  match ev with
  | CacheGet k | CacheSet k _ | TavilySearch k => k = claim
  | ResponsesCreate _ | ReplyText _ | SendAction | EditText _ => True
  | RateGet _ | RateSet _ _ => True
  end.

(** The rate-limit gate let the request through: it read the user's entry,
    recorded [now] and went on. *)
Definition allowed (user_id : Z) (now : Q) (s s' : state) : Prop :=
  (exists rest, new_events s s' = RateGet user_id :: RateSet user_id now :: rest)
  /\ s'.(user_last_request) = <[user_id := now]> s.(user_last_request).

(** The gate turned the request away: it read the user's entry, replied,
    and nothing else happened; every user's time stamp reads as before. *)
Definition rejected (user_id : Z) (s s' : state) : Prop :=
  new_events s s' = [RateGet user_id; ReplyText MSG_WAIT]
  /\ s'.(fact_cache) = s.(fact_cache)
  /\ (forall u, last_accepted s' u = last_accepted s u)
  /\ (is_Some (s.(user_last_request) !! user_id) ->
      s'.(user_last_request) = s.(user_last_request)).

(** A text that can only come out of line 149: the stripped output of an
    answered model call, with the sources section of some URL list. *)
Definition produced (E : env) (verdict : str) : Prop :=
  exists l req output_text urls,
    E.(openai) l req = ModelOk output_text
    /\ verdict = add_sources (strip output_text) urls.

(** Idempotence as the specification words it: a second call returns what
    the first returned and calls no provider. *)
Definition served_from_cache_twice
    (E : env) (s : state) (claim : str) (user_id : Z) : Prop :=
  let '(r1, s1) := fact_check claim user_id E s in
  let '(r2, s2) := fact_check claim user_id E s1 in
  r2 = r1 /\ Forall (fun ev => provider_call ev = false) (new_events s1 s2).

(** The lines of a sources section. *)
Definition source_lines (urls : list str) : list str :=
  List.map (fun u => BULLET ++ escape u) urls.

(** The text ends with a sources section listing [urls]. *)
Definition has_sources_section (text : str) (urls : list str) : Prop :=
  exists body,
    text = body ++ SOURCES_HEADER ++ join (lit nl) (source_lines urls).

(** [text.startswith(needle)] and [needle in text] *)
Fixpoint startswith (needle text : str) : bool :=
  match needle, text with
  | [], _ => true
  | a :: needle', b :: text' => (a =? b)%N && startswith needle' text'
  | _ :: _, [] => false
  end.

Fixpoint contains (needle text : str) : bool :=
  startswith needle text
  || match text with
     | [] => false
     | _ :: text' => contains needle text'
     end.

(** A text with no whitespace at either end. *)
Definition unpadded (text : str) : bool :=
  match text with
  | [] => true
  | c :: _ => negb (isspace c) && negb (isspace (List.last text c))
  end.

(** ** Concrete inputs *)

Definition message (text : string) (user_id : Z) : update :=
  {| message_text := Some (lit text); effective_user_id := user_id |}.

Definition cheese : update := message "The moon is made of cheese" 7.

Definition water : str := lit "Water is wet".

(** One letter followed by 500 spaces: 501 characters, one after
    trimming. *)
Definition padded : update :=
  {| message_text := Some (97%N :: repeat 32%N (Z.to_nat 500));
     effective_user_id := 7 |}.

Definition moon_response : response :=
  {| answer := None;
     results :=
       [ {| url := Some (lit "https://example.com/moon");
            content := Some (lit "The moon is composed of rock and dust.") |} ] |}.

(** One search result with a URL and no text. *)
Definition bare_link : response :=
  {| answer := None;
     results := [ {| url := Some (lit "https://example.com/moon");
                     content := None |} ] |}.


(** A transport that never raises. *)
Definition quiet : list event -> event -> option str := fun _ _ => None.

(** Search and model both answer. *)
Definition env_moon : env :=
  {| tavily := fun _ _ => SearchOk moon_response;
     openai := fun _ _ => ModelOk (lit "<b>Verdict:</b> False");
     telegram := quiet |}.

(** Search and model both unreachable. *)
Definition env_down : env :=
  {| tavily := fun _ _ => SearchRaises (lit "network error");
     openai := fun _ _ => ModelRaises (lit "service unavailable");
     telegram := quiet |}.

(** The search answers, the model call raises. *)
Definition env_model_down : env :=
  {| tavily := fun _ _ => SearchOk moon_response;
     openai := fun _ _ => ModelRaises (lit "service unavailable");
     telegram := quiet |}.

(** The search answers, the model call outlasts the deadline. *)
Definition env_model_slow : env :=
  {| tavily := fun _ _ => SearchOk moon_response;
     openai := fun _ _ => ModelDeadline;
     telegram := quiet |}.


(** The search fails until a provider call has been made, then answers. *)
Definition env_flaky : env :=
  {| tavily := fun l _ =>
       if existsb provider_call l then SearchOk moon_response
       else SearchRaises (lit "network error");
     openai := fun _ _ => ModelOk (lit "<b>Verdict:</b> False");
     telegram := quiet |}.

(** The search finds a link and no text. *)
Definition env_bare_link : env :=
  {| tavily := fun _ _ => SearchOk bare_link;
     openai := fun _ _ => ModelOk (lit "<b>Verdict:</b> False");
     telegram := quiet |}.


(** ** The rest of the module *)

(** Lines 32-35: the start-up check of the environment; [getenv] is
    [os.getenv] and [EnvironmentError] is an [Exception]. *)
Definition REQUIRED_KEYS : list str :=
  [lit "OPENAI_KEY"; lit "TELEGRAM_TOKEN"; lit "TAVILY_KEY"].



(** [start], lines 154-159. *)
Definition MSG_WELCOME : str :=
  lit ("<b>Welcome to Fact-Checking Bot</b>" ++ nl ++ nl
       ++ "Send any claim and I will verify it using live web search.")%string.

Definition start : M unit := reply_text MSG_WELCOME.

(** ** More vocabulary *)

(** Only whitespace, or nothing at all. *)
Definition blank (s : str) : bool := forallb isspace s.

(** The summary segment of the evidence, when the search gave an answer. *)
Definition summary (resp : response) : list str :=
  match present resp.(answer) with
  | Some a => [SUMMARY_PREFIX ++ a]
  | None => []
  end.

(** The stripped contents of the results that have one, in order. *)
Definition texts (resp : response) : list str :=
  omap (fun r => strip <$> present r.(content)) resp.(results).

(** The URLs of the results that have one, in order. *)
Definition links (resp : response) : list str :=
  omap (fun r => present r.(url)) resp.(results).

(** The transport never raises. *)
Definition reliable (E : env) : Prop :=
  forall l ev, E.(telegram) l ev = None.

(** The characters [html.escape] replaces, other than the ampersand. *)
Definition markup (c : N) : bool :=
  ((c =? 60) || (c =? 62) || (c =? 34) || (c =? 39))%N.

(** What lines 194-204 write into the placeholder for an outcome of the
    awaited [fact_check]. *)
Definition final_text (o : outcome str) : str :=
  match o with
  | Return verdict => verdict
  | Raise (Exception _) => MSG_ERROR
  | Raise _ => MSG_TIMEOUT
  end.

(** The handler returned, or a transport call raised and its error is
    what left the handler. *)
Definition returned_or_transport_error (E : env) (o : outcome unit) : Prop :=
  o = Return tt
  \/ exists what l ev,
       transport ev /\ E.(telegram) l ev = Some what
       /\ o = Raise (Exception what).

(** An environment with all three keys, and one without the last. *)
Definition getenv_full (k : str) : option str :=
  if decide (k ∈ REQUIRED_KEYS) then Some (lit "secret") else None.

Definition getenv_partial (k : str) : option str :=
  if decide (k = lit "OPENAI_KEY") then Some (lit "secret")
  else if decide (k = lit "TELEGRAM_TOKEN") then Some []
  else None.

(** A search answer with a summary and no results. *)
Definition summary_response : response :=
  {| answer := Some (lit "The moon is made of rock."); results := [] |}.

Definition env_summary : env :=
  {| tavily := fun _ _ => SearchOk summary_response;
     openai := fun _ _ => ModelOk (lit "<b>Verdict:</b> False");
     telegram := quiet |}.

(** The verdict [env_moon] leads to. *)
Definition moon_verdict : str :=
  lit "<b>Verdict:</b> False" ++ SOURCES_HEADER
  ++ BULLET ++ lit "https://example.com/moon".

(** As [env_moon], with a transport that refuses to show that verdict. *)
Definition env_refusing : env :=
  {| tavily := fun _ _ => SearchOk moon_response;
     openai := fun _ _ => ModelOk (lit "<b>Verdict:</b> False");
     telegram := fun _ ev =>
       match ev with
       | EditText text =>
           if decide (text = moon_verdict) then Some (lit "Bad Request") else None
       | _ => None
       end |}.

(** ** The update as Telegram delivers it

    [update.message] is [None] for an edited message or a channel post,
    which the filter of line 213 lets through, and [update.effective_user]
    may be [None] too.  Lines 162-164 read [update.message.text] and
    [user.id] without a guard. *)

Record telegram_update := {
  (** [update.message], and inside it [message.text] *)
  upd_message : option (option str);
  (** [update.effective_user], and inside it [user.id] *)
  upd_effective_user : option Z
}.

(** Reading an attribute of [None]. *)
Definition AttributeError : exn := Exception (lit "AttributeError").

Definition raise {A} (e : exn) : M A := fun _ s => (Raise e, s).

(** [handle_message] from its first line: line 163 reads
    [update.message.text], line 164 reads [user.id], and the rest runs
    on the text and the user id. *)
Definition handle_update (u : telegram_update) (now : Q) : M unit :=
  match u.(upd_message) with
  | None => raise AttributeError
  | Some text =>
      match u.(upd_effective_user) with
      | None => raise AttributeError
      | Some user_id =>
          handle_message
            {| message_text := text; effective_user_id := user_id |} now
      end
  end.



(** * Properties *)

(** Unfolds the monad and the primitive calls. *)
Ltac run :=
  repeat (unfold mbind, M_bind, mret, M_ret, try_except, wait_for,
            tavily_client_search, openai_responses_create, telegram_call,
            reply_text, send_action, edit_text,
            rate_get, rate_set, cache_get, cache_set in *;
          cbn [fst snd log user_last_request fact_cache emit is_Exception] in *).

(** ** Strings *)

Lemma len_app {A} (s t : list A) : len (s ++ t) = len s + len t.
Proof. unfold len. rewrite length_app. lia. Qed.

Lemma len_slice_to (n : Z) (s : str) :
  0 <= n <= len s -> len (slice_to n s) = n.
Proof.
  unfold len, slice_to. intros H. rewrite length_take. lia.
Qed.

Lemma len_TRUNCATION_MARKER : len TRUNCATION_MARKER = 16.
Proof. reflexivity. Qed.

(** ** Evidence retrieval *)


Lemma search_web_ok E s query resp :
  E.(tavily) s.(log) query = SearchOk resp ->
  search_web query E s = (Return (bundle resp), emit (TavilySearch query) s).
Proof. intros H. unfold search_web. run. rewrite H. reflexivity. Qed.

Lemma search_web_raises E s query what :
  E.(tavily) s.(log) query = SearchRaises what ->
  search_web query E s = (Return ([], []), emit (TavilySearch query) s).
Proof. intros H. unfold search_web. run. rewrite H. reflexivity. Qed.

Lemma search_web_run E s query :
  search_web query E s
  = (Return (retrieved (E.(tavily) s.(log) query)), emit (TavilySearch query) s).
Proof.
  destruct (E.(tavily) s.(log) query) eqn:H; cbn [retrieved].
  - by apply search_web_ok.
  - by eapply search_web_raises.
Qed.



(** C4. [search_web] never raises: whatever the search provider does, the
    call returns a pair, and when the provider raised, the pair is the
    empty bundle. *)
Theorem search_web_never_raises (E : env) (s : state) (query : str) :
  exists evidence urls,
    search_web query E s = (Return (evidence, urls), emit (TavilySearch query) s)
    /\ forall what,
         E.(tavily) s.(log) query = SearchRaises what ->
         evidence = [] /\ urls = [].
Proof.
  rewrite search_web_run.
  destruct (E.(tavily) s.(log) query) as [resp | what'] eqn:H; cbn [retrieved].
  - exists (bundle resp).1, (bundle resp).2. split; [by destruct (bundle resp) |].
    intros what Hw. discriminate.
  - exists [], []. by split.
Qed.

(** ** The orchestrator, case by case *)

Lemma fact_check_run E s claim user_id :
  fact_check claim user_id E s
  = let s0 := emit (CacheGet claim) s in
    match s.(fact_cache) !! claim with
    | Some verdict => (Return verdict, s0)
    | None =>
        let '(evidence, urls) := retrieved (E.(tavily) s0.(log) claim) in
        let s1 := emit (TavilySearch claim) s0 in
        if negb (truthy (strip evidence)) then (Return INSUFFICIENT_EVIDENCE, s1)
        else
          let req := mk_request claim evidence user_id in
          let s2 := emit (ResponsesCreate req) s1 in
          match E.(openai) s1.(log) req with
          | ModelOk output_text =>
              let verdict := add_sources (strip output_text) urls in
              (Return verdict, stored claim verdict s2)
          | ModelRaises _ => (Return AI_FAILED, s2)
          | ModelDeadline => (Raise CancelledError, s2)
          end
    end.
Proof.
  unfold fact_check.
  unfold mbind at 1, M_bind at 1, cache_get at 1. cbn [fact_cache].
  destruct (s.(fact_cache) !! claim) as [verdict |]; [reflexivity |].
  unfold mbind at 1, M_bind at 1. rewrite search_web_run.
  cbv zeta.
  destruct (retrieved _) as [evidence urls].
  destruct (negb (truthy (strip evidence))); [reflexivity |].
  run. destruct (E.(openai) _ _); reflexivity.
Qed.

Lemma new_events_app (s s' : state) (evs : list event) :
  s'.(log) = s.(log) ++ evs -> new_events s s' = evs.
Proof. unfold new_events. intros ->. apply drop_app_length. Qed.

Lemma telegram_call_run E s ev :
  exists o, telegram_call ev E s = (o, emit ev s)
            /\ (o = Return tt \/ exists what, o = Raise (Exception what)).
Proof.
  unfold telegram_call. destruct (E.(telegram) _ _) as [what |]; eauto.
Qed.

Lemma orchestrated_keyed claim ev : orchestrated claim ev -> keyed_by claim ev.
Proof. by destruct ev. Qed.

(** The orchestrator never touches the rate state, and only extends the
    log, by its own calls. *)
Lemma fact_check_frame E s claim user_id :
  (fact_check claim user_id E s).2.(user_last_request) = s.(user_last_request)
  /\ exists rest,
       (fact_check claim user_id E s).2.(log) = s.(log) ++ CacheGet claim :: rest
       /\ Forall (orchestrated claim) rest.
Proof.
  rewrite fact_check_run. cbv zeta.
  destruct (s.(fact_cache) !! claim).
  { split; [done |]. exists []. by rewrite Forall_nil. }
  destruct (retrieved _) as [evidence urls].
  destruct (negb _).
  { split; [done |]. exists [TavilySearch claim]. cbn. rewrite <- app_assoc.
    split; [done |]. by repeat constructor. }
  destruct (E.(openai) _ _); cbn; (split; [done |]); eexists;
    repeat rewrite <- app_assoc; (split; [reflexivity |]); by repeat constructor.
Qed.

(** The orchestrator writes the cache in one place only. *)
Lemma fact_check_cache E s claim user_id :
  (fact_check claim user_id E s).2.(fact_cache) = s.(fact_cache)
  \/ exists verdict,
       produced E verdict
       /\ (fact_check claim user_id E s).1 = Return verdict
       /\ (fact_check claim user_id E s).2.(fact_cache)
          = <[claim := verdict]> s.(fact_cache).
Proof.
  rewrite fact_check_run. cbv zeta.
  destruct (s.(fact_cache) !! claim); [by left |].
  destruct (retrieved _) as [evidence urls].
  destruct (negb _); [by left |].
  destruct (E.(openai) _ _) as [output_text | |] eqn:Hm; [| by left | by left].
  right. eexists. split; [| by split]. by repeat eexists.
Qed.

(** ** The handler, case by case *)

Lemma emit_emits ev evs s : emit ev (emits evs s) = emits (evs ++ [ev]) s.
Proof. unfold emit, emits. cbn. by rewrite <- app_assoc. Qed.

Lemma emit_as_emits ev s : emit ev s = emits [ev] s.
Proof. reflexivity. Qed.

Lemma transport_keyed claim ev : transport ev -> keyed_by claim ev.
Proof. by destruct ev. Qed.

(** An accepted request makes transport calls around one orchestrator
    call, or stops before it when a transport call raises. *)
Lemma serve_run E s claim user_id :
  exists pre post,
    Forall transport pre /\ Forall transport post
    /\ ((serve claim user_id E s).2 = emits (SendAction :: pre) s
        \/ (serve claim user_id E s).2
           = emits post (fact_check claim user_id E (emits (SendAction :: pre) s)).2).
Proof.
  destruct (serve claim user_id E s) as [o s'] eqn:Hs. cbn [snd].
  unfold serve in Hs.
  unfold mbind at 1, M_bind at 1, send_action in Hs.
  destruct (telegram_call_run E s SendAction) as (o1 & H1 & [-> | [w ->]]);
    rewrite H1 in Hs; clear H1.
  2:{ injection Hs as <- <-. exists [], [].
      split; [constructor |]. split; [constructor |]. by left. }
  unfold mbind at 1, M_bind at 1, reply_text in Hs.
  rewrite (emit_as_emits SendAction s) in Hs.
  destruct (telegram_call_run E (emits [SendAction] s) (ReplyText MSG_THINKING))
    as (o2 & H2 & [-> | [w ->]]); rewrite H2 in Hs; clear H2;
    rewrite emit_emits in Hs; cbn [app] in Hs.
  2:{ injection Hs as <- <-. exists [ReplyText MSG_THINKING], [].
      split; [by repeat constructor |]. split; [constructor |]. by left. }
  exists [ReplyText MSG_THINKING].
  set (s2 := emits _ s) in *.
  unfold try_except, mbind, M_bind, wait_for, edit_text in Hs.
  destruct (fact_check claim user_id E s2) as [[r | e] s3] eqn:Hfc; cbn [snd].
  - destruct (telegram_call_run E s3 (EditText r)) as (o4 & H4 & [-> | [w ->]]);
      rewrite H4 in Hs; clear H4.
    + injection Hs as <- <-. exists [EditText r].
      split; [by repeat constructor |]. split; [by repeat constructor |].
      by right.
    + destruct (telegram_call_run E (emit (EditText r) s3) (EditText MSG_ERROR))
        as (o5 & H5 & _); rewrite H5 in Hs; clear H5.
      injection Hs as <- <-. exists [EditText r; EditText MSG_ERROR].
      split; [by repeat constructor |]. split; [by repeat constructor |].
      right. rewrite (emit_as_emits (EditText r)). by rewrite emit_emits.
  - assert (exists msg o5, (o, s') = (o5, emit (EditText msg) s3)) as (msg & o5 & Heq).
    { destruct e as [w | |].
      + destruct (telegram_call_run E s3 (EditText MSG_ERROR)) as (o5 & H5 & _).
        rewrite H5 in Hs. eauto.
      + destruct (telegram_call_run E s3 (EditText MSG_TIMEOUT)) as (o5 & H5 & _).
        rewrite H5 in Hs. eauto.
      + destruct (telegram_call_run E s3 (EditText MSG_TIMEOUT)) as (o5 & H5 & _).
        rewrite H5 in Hs. eauto. }
    injection Heq as -> ->. exists [EditText msg].
    split; [by repeat constructor |]. split; [by repeat constructor |].
    by right.
Qed.

Lemma valid_spec upd :
  valid upd = true <->
  claim_of upd <> [] /\ len (claim_of upd) <= MAX_INPUT_LEN.
Proof.
  unfold valid. rewrite andb_true_iff, negb_true_iff.
  destruct (claim_of upd) eqn:Hc; cbn [truthy].
  - split; [intros [? _]; discriminate | intros [? _]; congruence].
  - destruct (Z.gtb_spec (len (n :: l)) MAX_INPUT_LEN); split;
      try (intros [_ ?]; first [discriminate | lia]); try done.
Qed.

Lemma handle_message_invalid E s upd now :
  claim_of upd = [] ->
  handle_message upd now E s = reply_text MSG_INVALID E s.
Proof. unfold handle_message, claim_of. by intros ->. Qed.

Lemma handle_message_too_long E s upd now :
  claim_of upd <> [] -> len (claim_of upd) > MAX_INPUT_LEN ->
  handle_message upd now E s = reply_text MSG_TOO_LONG E s.
Proof.
  unfold handle_message, claim_of. intros Hne Hlong.
  destruct (strip _); [done |]. cbn [truthy negb].
  destruct (Z.gtb_spec (len (n :: l)) MAX_INPUT_LEN); [done | lia].
Qed.

(** A valid message reaches the rate-limit gate of lines 176-183. *)
Lemma handle_message_valid E s upd now :
  valid upd = true ->
  handle_message upd now E s
  = let user_id := upd.(effective_user_id) in
    let s0 := (rate_get user_id E s).2 in
    if Qlt_le_dec (now - last_accepted s user_id) RATE_LIMIT_SECONDS
    then reply_text MSG_WAIT E s0
    else serve (claim_of upd) user_id E (rate_set user_id now E s0).2.
Proof.
  intros [Hne Hlen]%valid_spec.
  unfold handle_message, claim_of in *.
  destruct (strip _) as [| c cs]; [done |]. cbn [truthy negb].
  destruct (Z.gtb_spec (len (c :: cs)) MAX_INPUT_LEN); [lia |].
  unfold mbind at 1, M_bind at 1, rate_get, last_accepted.
  destruct (s.(user_last_request) !! _); cbn [default snd];
    destruct (Qlt_le_dec _ _); reflexivity.
Qed.

Lemma rate_get_state E s user_id :
  (rate_get user_id E s).2.(fact_cache) = s.(fact_cache)
  /\ (rate_get user_id E s).2.(log) = s.(log) ++ [RateGet user_id]
  /\ (forall u, last_accepted (rate_get user_id E s).2 u = last_accepted s u)
  /\ (is_Some (s.(user_last_request) !! user_id) ->
      (rate_get user_id E s).2.(user_last_request) = s.(user_last_request))
  /\ <[user_id := last_accepted s user_id]> s.(user_last_request)
     = (rate_get user_id E s).2.(user_last_request).
Proof.
  unfold rate_get, last_accepted.
  destruct (s.(user_last_request) !! user_id) as [t |] eqn:Hu; cbn.
  - repeat split; try done. by rewrite insert_id.
  - repeat split; try done.
    intros u. destruct (decide (user_id = u)) as [<- | Hne].
    + by rewrite lookup_insert_eq, Hu.
    + by rewrite lookup_insert_ne.
Qed.

Lemma serve_frame E s claim user_id :
  (serve claim user_id E s).2.(user_last_request) = s.(user_last_request)
  /\ exists rest,
       (serve claim user_id E s).2.(log) = s.(log) ++ SendAction :: rest
       /\ Forall (keyed_by claim) rest.
Proof.
  destruct (serve_run E s claim user_id) as (pre & post & Hpre & Hpost & [-> | ->]).
  - split; [done |]. exists pre. split; [done |].
    eapply Forall_impl; [exact Hpre |]. apply transport_keyed.
  - destruct (fact_check_frame E (emits (SendAction :: pre) s) claim user_id)
      as (Hr & rest & Hl & Hk).
    cbn [emits user_last_request log]. rewrite Hr, Hl. split; [done |].
    exists (pre ++ CacheGet claim :: rest ++ post). cbn.
    split; [by repeat (rewrite <- ?app_assoc; cbn) |].
    rewrite Forall_app, Forall_cons, Forall_app.
    repeat split; try done; (eapply Forall_impl; [eassumption |]);
      first [apply transport_keyed | apply orchestrated_keyed].
Qed.

Lemma serve_cache E s claim user_id :
  (serve claim user_id E s).2.(fact_cache) = s.(fact_cache)
  \/ exists verdict,
       produced E verdict
       /\ (serve claim user_id E s).2.(fact_cache)
          = <[claim := verdict]> s.(fact_cache).
Proof.
  destruct (serve_run E s claim user_id) as (pre & post & _ & _ & [-> | ->]).
  - by left.
  - destruct (fact_check_cache E (emits (SendAction :: pre) s) claim user_id)
      as [H | (v & Hv & _ & H)]; cbn [emits fact_cache] in *.
    + by left.
    + right. by exists v.
Qed.

(** ** Input validation *)

(** C9 fails as worded: the length test of line 170 reads the trimmed
    text, so a message of 501 characters that trims to one is taken on: it
    passes the gate, writes the rate state and is searched and cached. *)
Lemma long_padded_message_is_served :
  let s' := (handle_message padded 1000 env_moon initial).2 in
  len (default [] padded.(message_text)) = 501
  /\ 501 > MAX_INPUT_LEN
  /\ In (RateGet 7) (new_events initial s')
  /\ In (TavilySearch [97%N]) (new_events initial s')
  /\ s'.(user_last_request) !! 7 = Some 1000%Q
  /\ is_Some (s'.(fact_cache) !! [97%N]).
Proof.
  cbv zeta.
  split; [vm_compute; reflexivity |]. split; [reflexivity |].
  split; [vm_compute; tauto |]. split; [vm_compute; tauto |].
  split; [vm_compute; reflexivity |]. vm_compute. eauto.
Qed.

(** C9, as the code has it.  A message whose trimmed text is empty or
    longer than 500 characters gets one rejection reply and nothing else
    happens: the rate state is not read, the orchestrator is not called,
    and both dictionaries are as they were. *)
Theorem invalid_message_rejected (E : env) (s : state) (upd : update) (now : Q) :
  claim_of upd = [] \/ len (claim_of upd) > MAX_INPUT_LEN ->
  let s' := (handle_message upd now E s).2 in
  new_events s s'
  = [ReplyText (if truthy (claim_of upd) then MSG_TOO_LONG else MSG_INVALID)]
  /\ s'.(user_last_request) = s.(user_last_request)
  /\ s'.(fact_cache) = s.(fact_cache).
Proof.
  intros H s'. subst s'.
  assert (Hrun : exists msg,
    handle_message upd now E s = reply_text msg E s
    /\ msg = if truthy (claim_of upd) then MSG_TOO_LONG else MSG_INVALID).
  { destruct (claim_of upd) as [| c cs] eqn:Hc.
    - exists MSG_INVALID. split; [by apply handle_message_invalid | done].
    - exists MSG_TOO_LONG. split; [| done].
      apply handle_message_too_long; rewrite Hc; [done |].
      by destruct H. }
  destruct Hrun as (msg & -> & <-). unfold reply_text.
  destruct (telegram_call_run E s (ReplyText msg)) as (o & -> & _).
  cbn [snd]. split; [by apply new_events_app | done].
Qed.

Lemma invalid_message_rejected_witness :
  claim_of (message "   " 7) = []
  /\ new_events initial (handle_message (message "   " 7) 100 env_moon initial).2
     = [ReplyText MSG_INVALID].
Proof.
  split; [reflexivity |].
  apply (invalid_message_rejected env_moon initial (message "   " 7) 100).
  left. reflexivity.
Defined.

(** The length check of line 170 reads the trimmed text: a message of 501
    characters that trims to one character passes validation. *)
Remark padded_message_passes_validation :
  len (default [] padded.(message_text)) = 501 /\ valid padded = true.
Proof. split; vm_compute; reflexivity. Qed.

(** ** The rate limit *)

Lemma gate_rejects E s upd now :
  valid upd = true ->
  (now - last_accepted s upd.(effective_user_id) < RATE_LIMIT_SECONDS)%Q ->
  rejected upd.(effective_user_id) s (handle_message upd now E s).2.
Proof.
  intros Hv Hlt. rewrite (handle_message_valid _ _ _ _ Hv). cbv zeta.
  destruct (Qlt_le_dec _ _) as [_ | Hle]; [| by apply Qlt_not_le in Hlt].
  destruct (rate_get_state E s upd.(effective_user_id)) as (Hc & Hl & Ht & Hu & _).
  unfold reply_text.
  destruct (telegram_call_run E (rate_get upd.(effective_user_id) E s).2
              (ReplyText MSG_WAIT)) as (o & -> & _).
  cbn [snd]. repeat split; try done.
  apply new_events_app. cbn [emit log]. rewrite Hl. by rewrite <- app_assoc.
Qed.

Lemma gate_allows E s upd now :
  valid upd = true ->
  (RATE_LIMIT_SECONDS <= now - last_accepted s upd.(effective_user_id))%Q ->
  allowed upd.(effective_user_id) now s (handle_message upd now E s).2.
Proof.
  intros Hv Hle. rewrite (handle_message_valid _ _ _ _ Hv). cbv zeta.
  destruct (Qlt_le_dec _ _) as [Hlt | _]; [by apply Qlt_not_le in Hlt |].
  set (user_id := upd.(effective_user_id)) in *.
  destruct (rate_get_state E s user_id) as (_ & Hl & _ & _ & Hu).
  set (s1 := (rate_set user_id now E (rate_get user_id E s).2).2).
  destruct (serve_frame E s1 (claim_of upd) user_id) as (Hr & rest & Hlog & _).
  split.
  - exists (SendAction :: rest). apply new_events_app.
    rewrite Hlog. subst s1. cbn [rate_set snd emit log]. rewrite Hl.
    by repeat (rewrite <- ?app_assoc; cbn).
  - rewrite Hr. subst s1. cbn [rate_set snd emit user_last_request].
    rewrite <- Hu. apply insert_insert_eq.
Qed.

Lemma allowed_last_accepted user_id now s s' :
  allowed user_id now s s' -> last_accepted s' user_id = now.
Proof. intros [_ H]. unfold last_accepted. by rewrite H, lookup_insert_eq. Qed.

(** C5 fails as worded: a missing entry is read as the epoch, so a first
    request at a clock reading below 5 seconds is turned away. *)
Lemma first_request_rejected_near_epoch :
  initial.(user_last_request) !! 7 = None
  /\ valid cheese = true
  /\ rejected 7 initial (handle_message cheese 3 env_moon initial).2
  /\ ~ allowed 7 3 initial (handle_message cheese 3 env_moon initial).2.
Proof.
  assert (Hr : rejected 7 initial (handle_message cheese 3 env_moon initial).2).
  { apply (gate_rejects env_moon initial cheese 3 eq_refl).
    vm_compute. reflexivity. }
  split; [reflexivity |]. split; [reflexivity |]. split; [exact Hr |].
  destruct Hr as [Hr _]. intros [[rest Ha] _]. rewrite Hr in Ha. discriminate.
Qed.

(** C5, as the code has it.  The rate-limit gate, for a message that
    passed validation.  A request less than 5 seconds after the user's last
    accepted one is rejected and every recorded time stamp stays as it was;
    a request at least 5 seconds after it is allowed and [now] becomes the
    user's last accepted time stamp.  A user without an entry is read as
    last accepted at the epoch, so a first request is allowed at any clock
    reading of at least 5 seconds.  After an allowed request, a second one
    less than 5 seconds later is rejected and one at least 5 seconds later
    is allowed. *)
Theorem rate_limit_gate (E : env) (s : state) (upd : update) (now : Q) :
  valid upd = true ->
  let user_id := upd.(effective_user_id) in
  let s' := (handle_message upd now E s).2 in
  ((now - last_accepted s user_id < RATE_LIMIT_SECONDS)%Q -> rejected user_id s s')
  /\ ((RATE_LIMIT_SECONDS <= now - last_accepted s user_id)%Q ->
      allowed user_id now s s')
  /\ (s.(user_last_request) !! user_id = None ->
      (RATE_LIMIT_SECONDS <= now)%Q -> allowed user_id now s s')
  /\ forall upd2 now2,
       valid upd2 = true -> upd2.(effective_user_id) = user_id ->
       allowed user_id now s s' ->
       let s'' := (handle_message upd2 now2 E s').2 in
       ((now2 - now < RATE_LIMIT_SECONDS)%Q -> rejected user_id s' s'')
       /\ ((RATE_LIMIT_SECONDS <= now2 - now)%Q -> allowed user_id now2 s' s'').
Proof.
  intros Hv user_id s'. subst user_id s'.
  split; [by apply gate_rejects |].
  split; [by apply gate_allows |].
  split.
  - intros Hnone Hnow. apply gate_allows; [done |].
    unfold last_accepted. rewrite Hnone. cbn [default].
    unfold Qminus. by rewrite Qplus_0_r.
  - intros upd2 now2 Hv2 Hu Hallowed s''. subst s''.
    apply allowed_last_accepted in Hallowed. rewrite <- Hu. split; intros H.
    + apply gate_rejects; [done |]. by rewrite Hu, Hallowed.
    + apply gate_allows; [done |]. by rewrite Hu, Hallowed.
Qed.

Lemma rate_limit_gate_witness :
  valid cheese = true
  /\ allowed 7 1000 initial (handle_message cheese 1000 env_moon initial).2
  /\ rejected 7 (handle_message cheese 1000 env_moon initial).2
       (handle_message cheese 1003 env_moon
          (handle_message cheese 1000 env_moon initial).2).2.
Proof.
  assert (Hv : valid cheese = true) by reflexivity.
  destruct (rate_limit_gate env_moon initial cheese 1000 Hv)
    as (_ & _ & Hfirst & Hsecond).
  assert (Ha : allowed 7 1000 initial (handle_message cheese 1000 env_moon initial).2).
  { apply Hfirst; [reflexivity | unfold Qle; simpl; lia]. }
  split; [exact Hv |]. split; [exact Ha |].
  apply (Hsecond cheese 1003%Q Hv eq_refl Ha).
  unfold Qlt; simpl; lia.
Defined.

(** C10. An accepted request records [now] as the user's last accepted
    time stamp before anything else: the orchestrator starts from a state
    that already holds it (or is never started, when a transport call
    raised first).  The rate state at the end is the same under every
    behaviour of the providers, so a request whose fact-check fails or
    times out uses up the cooldown as a successful one does: the next
    request of that user within 5 seconds is rejected. *)
Theorem cooldown_recorded_first (E : env) (s : state) (upd : update) (now : Q) :
  valid upd = true ->
  (RATE_LIMIT_SECONDS <= now - last_accepted s upd.(effective_user_id))%Q ->
  let user_id := upd.(effective_user_id) in
  let s' := (handle_message upd now E s).2 in
  (exists rest,
     new_events s s' = RateGet user_id :: RateSet user_id now :: rest
     /\ Forall (fun ev => forall t, ev <> RateSet user_id t) rest)
  /\ (exists before post,
        before.(user_last_request) !! user_id = Some now
        /\ (s' = before
            \/ s' = emits post (fact_check (claim_of upd) user_id E before).2))
  /\ (forall E',
        (handle_message upd now E' s).2.(user_last_request)
        = <[user_id := now]> s.(user_last_request))
  /\ forall E' upd2 now2,
       valid upd2 = true -> upd2.(effective_user_id) = user_id ->
       (now2 - now < RATE_LIMIT_SECONDS)%Q ->
       rejected user_id (handle_message upd now E' s).2
         (handle_message upd2 now2 E' (handle_message upd now E' s).2).2.
Proof.
  intros Hv Hle user_id s'. subst s'.
  assert (Hall : forall E', allowed user_id now s (handle_message upd now E' s).2)
    by (intros E'; by apply gate_allows).
  split; [| split; [| split]].
  - rewrite (handle_message_valid _ _ _ _ Hv). cbv zeta. fold user_id.
    destruct (Qlt_le_dec _ _) as [Hlt | _]; [by apply Qlt_not_le in Hlt |].
    destruct (rate_get_state E s user_id) as (_ & Hl & _).
    set (s1 := (rate_set user_id now E (rate_get user_id E s).2).2).
    destruct (serve_run E s1 (claim_of upd) user_id)
      as (pre & post & Hpre & Hpost & Hs).
    assert (Hlog1 : s1.(log) = s.(log) ++ [RateGet user_id; RateSet user_id now]).
    { subst s1. cbn [rate_set snd emit log]. rewrite Hl. by rewrite <- app_assoc. }
    assert (Htr : forall evs, Forall transport evs ->
              Forall (fun ev => forall t, ev <> RateSet user_id t) evs).
    { intros evs H. eapply Forall_impl; [exact H |]. by intros []. }
    destruct Hs as [-> | ->].
    + exists (SendAction :: pre). split.
      * apply new_events_app. cbn [emits log]. rewrite Hlog1.
        by rewrite <- app_assoc.
      * constructor; [done | by apply Htr].
    + destruct (fact_check_frame E (emits (SendAction :: pre) s1)
                  (claim_of upd) user_id) as (_ & rest & Hl2 & Hk).
      exists (SendAction :: pre ++ CacheGet (claim_of upd) :: rest ++ post). split.
      * apply new_events_app. cbn [emits log]. rewrite Hl2. cbn [emits log].
        rewrite Hlog1. by repeat (rewrite <- ?app_assoc; cbn).
      * constructor; [done |]. rewrite Forall_app, Forall_cons, Forall_app.
        split; [by apply Htr |]. split; [done |]. split; [| by apply Htr].
        eapply Forall_impl; [exact Hk |]. by intros [].
  - rewrite (handle_message_valid _ _ _ _ Hv). cbv zeta. fold user_id.
    destruct (Qlt_le_dec _ _) as [Hlt | _]; [by apply Qlt_not_le in Hlt |].
    set (s1 := (rate_set user_id now E (rate_get user_id E s).2).2).
    destruct (serve_run E s1 (claim_of upd) user_id)
      as (pre & post & _ & _ & Hs).
    exists (emits (SendAction :: pre) s1), post. split.
    + subst s1. cbn. apply lookup_insert_eq.
    + destruct Hs as [-> | ->]; [by left | by right].
  - intros E'. apply (Hall E').
  - intros E' upd2 now2 Hv2 Hu Hlt. rewrite <- Hu.
    apply gate_rejects; [done |].
    rewrite Hu. by rewrite (allowed_last_accepted _ _ _ _ (Hall E')).
Qed.

Lemma cooldown_recorded_first_witness :
  valid cheese = true
  /\ (handle_message cheese 1000 env_model_down initial).2.(user_last_request)
     = <[7 := 1000%Q]> initial.(user_last_request)
  /\ (handle_message cheese 1000 env_model_slow initial).2.(user_last_request)
     = (handle_message cheese 1000 env_moon initial).2.(user_last_request).
Proof.
  assert (Hv : valid cheese = true) by reflexivity.
  assert (Hle : (RATE_LIMIT_SECONDS
                 <= 1000 - last_accepted initial cheese.(effective_user_id))%Q)
    by (vm_compute; discriminate).
  destruct (cooldown_recorded_first env_moon initial cheese 1000 Hv Hle)
    as (_ & _ & Hrate & _).
  split; [exact Hv |]. split; [apply Hrate |].
  by rewrite !Hrate.
Defined.

(** ** The orchestrator *)

(** C2. When the retrieved evidence is empty or whitespace-only,
    [fact_check] returns the fixed verdict, labelled Insufficient Evidence
    with confidence 0% and the canned explanation, after a cache lookup and
    one search: the model provider is not called and nothing is cached. *)
Theorem insufficient_evidence_short_circuit
    (E : env) (s s1 : state) (claim : str) (user_id : Z)
    (evidence : str) (urls : list str) :
  s.(fact_cache) !! claim = None ->
  search_web claim E (emit (CacheGet claim) s) = (Return (evidence, urls), s1) ->
  strip evidence = [] ->
  fact_check claim user_id E s
  = (Return (VERDICT_LINE "Insufficient Evidence" ++ lit nl
             ++ CONFIDENCE_LINE "0%" ++ lit nl
             ++ EXPLANATION_LINE "No reliable sources found."), s1)
  /\ new_events s s1 = [CacheGet claim; TavilySearch claim]
  /\ Forall (fun ev => model_call ev = false) (new_events s s1)
  /\ s1.(fact_cache) = s.(fact_cache).
Proof.
  intros Hmiss Hsearch Hblank.
  rewrite search_web_run in Hsearch. injection Hsearch as Hret <-.
  assert (Hnew : new_events s (emit (TavilySearch claim) (emit (CacheGet claim) s))
                 = [CacheGet claim; TavilySearch claim]).
  { apply new_events_app. cbn. by rewrite <- app_assoc. }
  split; [| split; [exact Hnew | split; [| done]]].
  - rewrite fact_check_run, Hmiss. cbv zeta. cbn [emit log] in Hret |- *.
    rewrite Hret, Hblank. reflexivity.
  - rewrite Hnew. by repeat constructor.
Qed.

Lemma insufficient_evidence_short_circuit_witness :
  exists s1,
    fact_check (lit "The moon is made of cheese") 7 env_down initial
    = (Return INSUFFICIENT_EVIDENCE, s1)
    /\ Forall (fun ev => model_call ev = false) (new_events initial s1).
Proof.
  eexists.
  destruct (insufficient_evidence_short_circuit env_down initial _
              (lit "The moon is made of cheese") 7 [] []
              eq_refl eq_refl eq_refl) as (Hrun & _ & Hmodel & _).
  split; [exact Hrun | exact Hmodel].
Defined.

(** A verdict that [fact_check] returns, other than the two fixed texts of
    its uncached branches, is in the cache under [claim] afterwards. *)
Lemma fact_check_returned_cached E s claim user_id r1 s1 :
  fact_check claim user_id E s = (Return r1, s1) ->
  r1 <> INSUFFICIENT_EVIDENCE -> r1 <> AI_FAILED ->
  s1.(fact_cache) !! claim = Some r1.
Proof.
  rewrite fact_check_run. cbv zeta. intros Hrun Hne1 Hne2.
  destruct (s.(fact_cache) !! claim) as [v |] eqn:Hc.
  { injection Hrun as <- <-. exact Hc. }
  destruct (retrieved _) as [evidence urls].
  destruct (negb _).
  { injection Hrun as <- <-. done. }
  destruct (E.(openai) _ _).
  - injection Hrun as <- <-. cbn. apply lookup_insert_eq.
  - injection Hrun as <- <-. done.
  - discriminate.
Qed.

Lemma fact_check_hit E s claim user_id verdict :
  s.(fact_cache) !! claim = Some verdict ->
  fact_check claim user_id E s = (Return verdict, emit (CacheGet claim) s).
Proof. intros H. rewrite fact_check_run. cbv zeta. by rewrite H. Qed.

(** C1, as the code has it.  When the first call returned a verdict other
    than the fixed Insufficient Evidence text and the model-failure
    message, a second call with the same claim string returns the same
    verdict after a cache lookup alone: neither provider is called.  (The
    two excluded outcomes are returned without a cache write.) *)
Theorem second_call_served_from_cache
    (E : env) (s s1 : state) (claim : str) (user_id : Z) (r1 : str) :
  fact_check claim user_id E s = (Return r1, s1) ->
  r1 <> INSUFFICIENT_EVIDENCE ->
  r1 <> AI_FAILED ->
  fact_check claim user_id E s1 = (Return r1, emit (CacheGet claim) s1)
  /\ new_events s1 (emit (CacheGet claim) s1) = [CacheGet claim]
  /\ served_from_cache_twice E s claim user_id.
Proof.
  intros Hrun Hne1 Hne2.
  pose proof (fact_check_returned_cached _ _ _ _ _ _ Hrun Hne1 Hne2) as Hc.
  pose proof (fact_check_hit E s1 claim user_id r1 Hc) as Hrun2.
  assert (Hnew : new_events s1 (emit (CacheGet claim) s1) = [CacheGet claim])
    by by apply new_events_app.
  split; [exact Hrun2 |]. split; [exact Hnew |].
  unfold served_from_cache_twice. rewrite Hrun, Hrun2, Hnew.
  split; [done | by repeat constructor].
Qed.

Lemma second_call_served_from_cache_witness :
  served_from_cache_twice env_moon initial (lit "The moon is made of cheese") 7.
Proof.
  destruct (fact_check (lit "The moon is made of cheese") 7 env_moon initial)
    as [[r1 | e] s1] eqn:H; [| vm_compute in H; discriminate].
  apply (second_call_served_from_cache env_moon initial s1 _ 7 r1 H).
  - vm_compute in H. injection H as <- _. vm_compute. discriminate.
  - vm_compute in H. injection H as <- _. vm_compute. discriminate.
Defined.

(** C1 fails as worded: the Insufficient Evidence verdict is returned
    without a cache write, so the same claim asked again goes to the search
    provider again, and may get another verdict. *)
Lemma insufficient_evidence_not_cached :
  let claim := lit "The moon is made of cheese" in
  exists s1 r2 s2,
    fact_check claim 7 env_flaky initial = (Return INSUFFICIENT_EVIDENCE, s1)
    /\ s1.(fact_cache) = initial.(fact_cache)
    /\ fact_check claim 7 env_flaky s1 = (Return r2, s2)
    /\ r2 <> INSUFFICIENT_EVIDENCE
    /\ existsb provider_call (new_events s1 s2) = true
    /\ ~ served_from_cache_twice env_flaky initial claim 7.
Proof.
  intros claim.
  exists (emits [CacheGet claim; TavilySearch claim] initial).
  eexists _, _.
  split; [reflexivity |]. split; [reflexivity |].
  split; [vm_compute; reflexivity |].
  split; [vm_compute; discriminate |].
  split; [vm_compute; reflexivity |].
  unfold served_from_cache_twice. intros H. vm_compute in H.
  destruct H as [H _]. discriminate.
Qed.

Lemma source_lines_lookup (urls : list str) (i : nat) (u : str) :
  urls !! i = Some u -> source_lines urls !! i = Some (BULLET ++ escape u).
Proof.
  revert i. induction urls as [| u' urls IH]; intros [| i] H; try discriminate.
  - by injection H as ->.
  - by apply IH.
Qed.

Lemma length_source_lines (urls : list str) :
  length (source_lines urls) = length urls.
Proof. apply length_map. Qed.

(** C6, as the code has it.  On a cache miss with non-blank evidence and an
    answered model call, the returned text is the stripped model output,
    followed, when the bundle carries N > 0 URLs, by the sources header
    and N lines joined by newlines, the i-th being the bullet and the
    HTML-escaped i-th URL (order and duplicates kept); with no URLs nothing
    is appended. *)
Theorem sources_appended
    (E : env) (s s1 : state) (claim : str) (user_id : Z)
    (evidence : str) (urls : list str) (output_text : str) :
  s.(fact_cache) !! claim = None ->
  search_web claim E (emit (CacheGet claim) s) = (Return (evidence, urls), s1) ->
  strip evidence <> [] ->
  E.(openai) s1.(log) (mk_request claim evidence user_id) = ModelOk output_text ->
  exists text s2,
    fact_check claim user_id E s = (Return text, s2)
    /\ match urls with
       | [] => text = strip output_text
       | _ :: _ =>
           exists lines,
             text = strip output_text ++ SOURCES_HEADER ++ join (lit nl) lines
             /\ length lines = length urls
             /\ forall i u, urls !! i = Some u ->
                            lines !! i = Some (BULLET ++ escape u)
       end.
Proof.
  intros Hmiss Hsearch Hev Hmodel.
  rewrite search_web_run in Hsearch. injection Hsearch as Hret <-.
  cbn [emit log] in Hret, Hmodel.
  rewrite fact_check_run, Hmiss. cbv zeta. cbn [emit log]. rewrite Hret.
  destruct (strip evidence) eqn:Hs; [done |]. cbn [truthy negb].
  rewrite Hmodel.
  eexists _, _. split; [reflexivity |].
  destruct urls as [| u urls]; [reflexivity |].
  exists (source_lines (u :: urls)). split; [reflexivity |].
  split; [apply length_source_lines | apply source_lines_lookup].
Qed.

Lemma sources_appended_witness :
  exists s2,
    fact_check (lit "The moon is made of cheese") 7 env_moon initial
    = (Return (lit "<b>Verdict:</b> False" ++ SOURCES_HEADER
               ++ BULLET ++ lit "https://example.com/moon"), s2).
Proof.
  destruct (sources_appended env_moon initial _
              (lit "The moon is made of cheese") 7
              (lit "The moon is composed of rock and dust.")
              [lit "https://example.com/moon"]
              (lit "<b>Verdict:</b> False")
              eq_refl eq_refl ltac:(vm_compute; discriminate) eq_refl)
    as (text & s2 & Hrun & lines & -> & Hlen & Hline).
  destruct lines as [| line [| ? ?]]; try discriminate.
  specialize (Hline 0%nat _ eq_refl). injection Hline as ->.
  exists s2. exact Hrun.
Defined.

(** C6 fails as worded: a bundle with a URL and no text gets the fixed
    Insufficient Evidence verdict, which has no sources section. *)
Lemma sources_dropped_without_evidence :
  let claim := lit "The moon is made of cheese" in
  exists urls s0 s1,
    search_web claim env_bare_link (emit (CacheGet claim) initial)
    = (Return ([], urls), s0)
    /\ urls = [lit "https://example.com/moon"]
    /\ fact_check claim 7 env_bare_link initial = (Return INSUFFICIENT_EVIDENCE, s1)
    /\ contains (lit "Sources:") INSUFFICIENT_EVIDENCE = false
    /\ ~ has_sources_section INSUFFICIENT_EVIDENCE urls.
Proof.
  intros claim. eexists _, _, _.
  split; [reflexivity |]. split; [reflexivity |]. split; [reflexivity |].
  split; [reflexivity |].
  intros [body H]. apply (f_equal (@rev N)) in H.
  rewrite rev_app_distr in H.
  set (t := rev (SOURCES_HEADER ++ _)) in H. vm_compute in t. subst t.
  set (i := rev INSUFFICIENT_EVIDENCE) in H. vm_compute in i. subst i.
  discriminate.
Qed.

(** ** What the cache holds *)

Lemma lstrip_head (s : str) (c : N) (rest : str) :
  lstrip s = c :: rest -> isspace c = false.
Proof.
  induction s as [| a s IH]; [discriminate |]. cbn [lstrip].
  destruct (isspace a) eqn:Ha; [exact IH |].
  intros H. injection H as <- _. exact Ha.
Qed.

Lemma lstrip_dropped (s : str) : exists ws, s = ws ++ lstrip s.
Proof.
  induction s as [| a s [ws IH]]; [by exists [] |]. cbn [lstrip].
  destruct (isspace a).
  - exists (a :: ws). cbn. by rewrite <- IH.
  - by exists [].
Qed.

Lemma strip_head (s : str) (c : N) (rest : str) :
  strip s = c :: rest -> isspace c = false.
Proof.
  unfold strip, rstrip. intros H.
  destruct (lstrip_dropped (rev (lstrip s))) as [ws Hws].
  apply (f_equal (@rev N)) in Hws.
  rewrite rev_involutive, rev_app_distr, H in Hws.
  by apply (lstrip_head s c (rest ++ rev ws)).
Qed.


Lemma handle_message_rejected_run E s upd now :
  valid upd = false ->
  exists msg o, handle_message upd now E s = (o, emit (ReplyText msg) s).
Proof.
  intros Hv.
  assert (H : claim_of upd = []
              \/ (claim_of upd <> [] /\ len (claim_of upd) > MAX_INPUT_LEN)).
  { destruct (claim_of upd) as [| c cs] eqn:Hc; [by left | right].
    split; [done |].
    destruct (Z_le_gt_dec (len (c :: cs)) MAX_INPUT_LEN) as [Hle |]; [| done].
    assert (valid upd = true); [| congruence].
    apply valid_spec. by rewrite Hc. }
  destruct H as [H | [H1 H2]].
  - rewrite (handle_message_invalid _ _ _ _ H). unfold reply_text.
    destruct (telegram_call_run E s (ReplyText MSG_INVALID)) as (o & -> & _).
    eauto.
  - rewrite (handle_message_too_long _ _ _ _ H1 H2). unfold reply_text.
    destruct (telegram_call_run E s (ReplyText MSG_TOO_LONG)) as (o & -> & _).
    eauto.
Qed.

(** A handled message leaves the cache alone or stores one produced
    verdict under its claim string. *)
Lemma handle_message_cache E s upd now :
  (handle_message upd now E s).2.(fact_cache) = s.(fact_cache)
  \/ exists verdict,
       produced E verdict
       /\ (handle_message upd now E s).2.(fact_cache)
          = <[claim_of upd := verdict]> s.(fact_cache).
Proof.
  destruct (valid upd) eqn:Hv.
  2:{ destruct (handle_message_rejected_run E s upd now Hv) as (msg & o & ->).
      by left. }
  rewrite (handle_message_valid _ _ _ _ Hv). cbv zeta.
  set (user_id := upd.(effective_user_id)).
  destruct (rate_get_state E s user_id) as (Hc & _).
  destruct (Qlt_le_dec _ _).
  - unfold reply_text.
    destruct (telegram_call_run E (rate_get user_id E s).2 (ReplyText MSG_WAIT))
      as (o & -> & _).
    left. exact Hc.
  - set (s1 := (rate_set user_id now E (rate_get user_id E s).2).2).
    assert (Hc1 : s1.(fact_cache) = s.(fact_cache)) by exact Hc.
    destruct (serve_cache E s1 (claim_of upd) user_id) as [H | (v & Hv' & H)].
    + left. by rewrite H.
    + right. exists v. by rewrite H, Hc1.
Qed.






(** ** Cache keys *)

Lemma lstrip_unpadded (c : N) (s : str) :
  isspace c = false -> lstrip (c :: s) = c :: s.
Proof. intros H. cbn [lstrip]. by rewrite H. Qed.

Lemma strip_unpadded (text : str) : unpadded text = true -> strip text = text.
Proof.
  destruct text as [| c s]; [reflexivity |].
  unfold unpadded. rewrite andb_true_iff, !negb_true_iff. intros [Hc Hl].
  unfold strip, rstrip. rewrite (lstrip_unpadded c s Hc).
  destruct (exists_last (l := c :: s)) as (front & z & Heq); [done |].
  rewrite Heq in *. rewrite last_last in Hl.
  rewrite rev_app_distr. cbn [rev app]. rewrite (lstrip_unpadded z _ Hl).
  change (z :: rev front) with ([z] ++ rev front).
  by rewrite rev_app_distr, rev_involutive.
Qed.

Lemma handle_message_events E s upd now :
  Forall (keyed_by (claim_of upd)) (new_events s (handle_message upd now E s).2).
Proof.
  destruct (valid upd) eqn:Hv.
  2:{ destruct (handle_message_rejected_run E s upd now Hv) as (msg & o & ->).
      erewrite new_events_app; [| reflexivity]. by repeat constructor. }
  rewrite (handle_message_valid _ _ _ _ Hv). cbv zeta.
  set (user_id := upd.(effective_user_id)).
  destruct (rate_get_state E s user_id) as (_ & Hl & _).
  destruct (Qlt_le_dec _ _).
  - unfold reply_text.
    destruct (telegram_call_run E (rate_get user_id E s).2 (ReplyText MSG_WAIT))
      as (o & -> & _).
    erewrite new_events_app.
    2:{ cbn [snd emit log]. rewrite Hl, <- app_assoc. reflexivity. }
    by repeat constructor.
  - set (s1 := (rate_set user_id now E (rate_get user_id E s).2).2).
    destruct (serve_frame E s1 (claim_of upd) user_id) as (_ & rest & Hlog & Hk).
    erewrite new_events_app.
    2:{ rewrite Hlog. subst s1. cbn [rate_set snd emit log].
        rewrite Hl, <- !app_assoc. reflexivity. }
    cbn [app]. by repeat constructor.
Qed.

(** C8, as the code has it.  [fact_check] uses its claim argument as it
    is: every cache access and every search it makes names exactly that
    string, and on a miss the search query is that string.  The handler
    passes the message text with leading and trailing whitespace stripped:
    every cache key and search query of a handled message is the stripped
    text, and no other cache entry changes.  Nothing else is normalized:
    two different texts without whitespace at either end are different
    claim strings. *)
Theorem claim_string_is_stripped_text
    (E : env) (s : state) (upd : update) (now : Q) :
  let s' := (handle_message upd now E s).2 in
  claim_of upd = strip (default [] upd.(message_text))
  /\ Forall (keyed_by (claim_of upd)) (new_events s s')
  /\ (forall k, k <> claim_of upd -> s'.(fact_cache) !! k = s.(fact_cache) !! k)
  /\ (forall claim user_id s0,
        exists rest,
          new_events s0 (fact_check claim user_id E s0).2 = CacheGet claim :: rest
          /\ Forall (orchestrated claim) rest
          /\ (s0.(fact_cache) !! claim = None ->
              exists rest', rest = TavilySearch claim :: rest'))
  /\ forall text1 text2,
       unpadded text1 = true -> unpadded text2 = true -> text1 <> text2 ->
       claim_of {| message_text := Some text1;
                   effective_user_id := upd.(effective_user_id) |}
       <> claim_of {| message_text := Some text2;
                      effective_user_id := upd.(effective_user_id) |}.
Proof.
  intros s'. subst s'.
  split; [reflexivity |]. split; [apply handle_message_events |]. split; [| split].
  - intros k Hk.
    destruct (handle_message_cache E s upd now) as [-> | (v & _ & ->)]; [done |].
    by apply lookup_insert_ne.
  - intros claim user_id s0.
    destruct (fact_check_frame E s0 claim user_id) as (_ & rest & Hlog & Hrest).
    exists rest. split; [by apply new_events_app |]. split; [exact Hrest |].
    intros Hmiss. rewrite fact_check_run, Hmiss in Hlog. cbv zeta in Hlog.
    destruct (retrieved _) as [evidence urls].
    destruct (negb _); [| destruct (E.(openai) _ _)];
      cbn in Hlog; rewrite <- ?app_assoc in Hlog;
      apply app_inv_head in Hlog; injection Hlog as <-; eauto.
  - intros text1 text2 H1 H2 Hne. change (strip text1 <> strip text2).
    by rewrite (strip_unpadded _ H1), (strip_unpadded _ H2).
Qed.

(** C8 fails as worded: a message and the same message with a trailing
    space are different texts, and the second is answered from the cache
    entry of the first. *)
Lemma padded_message_shares_entry :
  let m1 := message "Water is wet" 7 in
  let m2 := message "Water is wet " 7 in
  let s1 := (handle_message m1 1000 env_moon initial).2 in
  let s2 := (handle_message m2 1010 env_moon s1).2 in
  m1.(message_text) <> m2.(message_text)
  /\ is_Some (s1.(fact_cache) !! water)
  /\ In (CacheGet water) (new_events s1 s2)
  /\ existsb provider_call (new_events s1 s2) = false
  /\ s2.(fact_cache) = s1.(fact_cache).
Proof.
  cbv zeta.
  split; [vm_compute; discriminate |].
  split; [vm_compute; eauto |].
  split; [vm_compute; tauto |].
  split; vm_compute; reflexivity.
Qed.

(** * Further properties *)

(** ** Whitespace *)

Lemma lstrip_nil (s : str) : lstrip s = [] <-> blank s = true.
Proof.
  induction s as [| c s IH]; [done |]. cbn [lstrip blank forallb].
  destruct (isspace c); cbn [andb]; [exact IH | done].
Qed.

Lemma blank_rev (s : str) : blank (rev s) = blank s.
Proof.
  unfold blank. induction s as [| c s IH]; [done |].
  cbn [rev forallb]. rewrite forallb_app, IH. cbn. rewrite andb_true_r.
  apply andb_comm.
Qed.

Lemma blank_lstrip (s : str) : blank (lstrip s) = blank s.
Proof.
  induction s as [| c s IH]; [done |]. cbn [lstrip].
  destruct (isspace c) eqn:Hc; [| done]. rewrite IH. cbn. by rewrite Hc.
Qed.

Lemma strip_nil (s : str) : strip s = [] <-> blank s = true.
Proof.
  unfold strip, rstrip. split.
  - intros H. apply (f_equal (@rev N)) in H. rewrite rev_involutive in H.
    cbn in H. apply lstrip_nil in H. by rewrite blank_rev, blank_lstrip in H.
  - intros H. assert (lstrip (rev (lstrip s)) = []) as ->; [| done].
    apply lstrip_nil. by rewrite blank_rev, blank_lstrip.
Qed.

Lemma strip_last (s : str) (c : N) (front : str) :
  strip s = front ++ [c] -> isspace c = false.
Proof.
  unfold strip, rstrip. intros H.
  apply (f_equal (@rev N)) in H. rewrite rev_involutive, rev_app_distr in H.
  cbn in H. by apply lstrip_head in H.
Qed.

Lemma unpadded_strip (s : str) : unpadded (strip s) = true.
Proof.
  destruct (strip s) as [| c cs] eqn:Hs; [done |].
  unfold unpadded. rewrite (strip_head _ _ _ Hs). cbn [negb andb].
  destruct (exists_last (l := c :: cs)) as (front & z & Heq); [done |].
  rewrite Heq, last_last. rewrite Heq in Hs.
  by rewrite (strip_last _ _ _ Hs).
Qed.

Lemma strip_strip (s : str) : strip (strip s) = strip s.
Proof. apply strip_unpadded, unpadded_strip. Qed.

(** ** What [search_web] assembles *)

Lemma collect_loop (rs : list result) (parts urls : list str) :
  fold_left
    (fun '(parts, urls) r =>
       let urls := match present r.(url) with
                   | Some u => urls ++ [u]
                   | None => urls
                   end in
       let parts := match present r.(content) with
                    | Some c => parts ++ [strip c]
                    | None => parts
                    end in
       (parts, urls))
    rs (parts, urls)
  = (parts ++ omap (fun r => strip <$> present r.(content)) rs,
     urls ++ omap (fun r => present r.(url)) rs).
Proof.
  revert parts urls. induction rs as [| r rs IH]; intros parts urls.
  - cbn. by rewrite !app_nil_r.
  - cbn [fold_left omap list_omap]. rewrite IH.
    destruct (present r.(url)), (present r.(content)); cbn;
      by rewrite <- ?app_assoc.
Qed.

Lemma collect_spec (resp : response) :
  collect resp = (summary resp ++ texts resp, links resp).
Proof. unfold collect. fold (summary resp). by rewrite collect_loop. Qed.

(** X1. The URL list [search_web] returns is the list of the non-empty
    urls of the results, in the order of the results and with duplicates,
    whether or not a result has a content; the evidence is built from the
    summary and the stripped non-empty contents alone. *)
Theorem bundle_urls_and_texts (E : env) (s : state) (query : str) (resp : response) :
  E.(tavily) s.(log) query = SearchOk resp ->
  search_web query E s
  = (Return (cap (join SEPARATOR (summary resp ++ texts resp)), links resp),
     emit (TavilySearch query) s)
  /\ Forall (fun u => u <> []) (links resp)
  /\ (length (links resp) <= length resp.(results))%nat
  /\ forall i u, links resp !! i = Some u ->
       exists j r, resp.(results) !! j = Some r /\ r.(url) = Some u.
Proof.
  intros Hok. split; [| split; [| split]].
  - rewrite (search_web_ok _ _ _ _ Hok). unfold bundle.
    by rewrite collect_spec.
  - unfold links. apply Forall_forall. intros u [r [_ Hr]]%list_elem_of_omap.
    unfold present in Hr. destruct (url r) as [[| c t] |]; [done | | done].
    by injection Hr as <-.
  - unfold links. induction resp.(results) as [| r rs IH]; [done |].
    cbn. destruct (present r.(url)); cbn; lia.
  - intros i u Hi. apply list_elem_of_lookup_2 in Hi.
    apply list_elem_of_omap in Hi as (r & [j Hj]%list_elem_of_lookup_1 & Hr).
    exists j, r. split; [exact Hj |].
    unfold present in Hr. destruct (url r) as [[| c t] |]; [done | | done].
    by injection Hr as <-.
Qed.

Lemma len_cap (evidence : str) :
  len (cap evidence) <= MAX_EVIDENCE_LEN + len TRUNCATION_MARKER.
Proof.
  unfold cap. destruct (Z.gtb_spec (len evidence) MAX_EVIDENCE_LEN) as [Hgt | Hle].
  - rewrite len_app, len_slice_to; [lia |]. unfold MAX_EVIDENCE_LEN in *. lia.
  - assert (0 <= len TRUNCATION_MARKER) by (unfold len; lia). lia.
Qed.

Lemma len_retrieved (o : search_outcome) :
  len (retrieved o).1 <= MAX_EVIDENCE_LEN + len TRUNCATION_MARKER.
Proof.
  destruct o as [resp | what]; cbn [retrieved].
  - unfold bundle. destruct (collect resp) as [parts urls]. apply len_cap.
  - by vm_compute.
Qed.

(** X2. Whatever the search provider answers, the evidence text
    [search_web] returns has at most 6016 characters (the 6000 of the cap
    and the 16 of the marker); a joined text of at most 6000 characters is
    returned as it is, without a marker. *)
Theorem evidence_length_bound (E : env) (s : state) (query : str) :
  exists evidence urls,
    search_web query E s = (Return (evidence, urls), emit (TavilySearch query) s)
    /\ len evidence <= 6016
    /\ forall resp,
         E.(tavily) s.(log) query = SearchOk resp ->
         len (join SEPARATOR (summary resp ++ texts resp)) <= MAX_EVIDENCE_LEN ->
         evidence = join SEPARATOR (summary resp ++ texts resp).
Proof.
  rewrite search_web_run.
  exists (retrieved (E.(tavily) s.(log) query)).1,
         (retrieved (E.(tavily) s.(log) query)).2.
  split; [by destruct (retrieved _) |]. split; [apply len_retrieved |].
  intros resp -> Hshort. cbn [retrieved]. unfold bundle.
  rewrite collect_spec. cbn [fst]. unfold cap.
  destruct (Z.gtb_spec (len (join SEPARATOR (summary resp ++ texts resp)))
              MAX_EVIDENCE_LEN); [lia | done].
Qed.

Lemma blank_app (s t : str) : blank (s ++ t) = blank s && blank t.
Proof. apply forallb_app. Qed.

Lemma blank_cap (evidence : str) :
  blank (cap evidence) = true <->
  blank evidence = true /\ len evidence <= MAX_EVIDENCE_LEN.
Proof.
  unfold cap. destruct (Z.gtb_spec (len evidence) MAX_EVIDENCE_LEN) as [Hgt | Hle].
  - rewrite blank_app.
    assert (blank TRUNCATION_MARKER = false) as -> by reflexivity.
    rewrite andb_false_r. split; [done | lia].
  - tauto.
Qed.

Lemma blank_join (parts : list str) :
  blank (join SEPARATOR parts) = true <->
  parts = [] \/ exists p, parts = [p] /\ blank p = true.
Proof.
  destruct parts as [| p [| q parts]]; cbn [join].
  - split; [by left | done].
  - split; [intros H; right; by exists p | by intros [? | (? & [= <-] & ?)]].
  - rewrite !blank_app.
    assert (blank SEPARATOR = false) as -> by reflexivity.
    cbn [andb]. rewrite andb_false_r.
    split; [done | by intros [? | (? & ? & _)]].
Qed.

Lemma blank_strip (s : str) : blank (strip s) = true <-> strip s = [].
Proof. rewrite <- (strip_strip s) at 2. symmetry. apply strip_nil. Qed.

Lemma texts_stripped (resp : response) :
  Forall (fun p => blank p = true -> p = []) (texts resp).
Proof.
  apply Forall_forall. intros p (r & _ & Hr)%list_elem_of_omap.
  destruct (present r.(content)) as [c |]; [| done].
  injection Hr as <-. apply blank_strip.
Qed.

Lemma summary_not_blank (resp : response) (a : str) :
  present resp.(answer) = Some a -> strip (bundle resp).1 <> [].
Proof.
  intros Ha. unfold bundle. rewrite collect_spec. cbn [fst].
  rewrite strip_nil, blank_cap, blank_join. unfold summary. rewrite Ha.
  intros [[? | (p & Heq & Hp)] _]; [done |].
  assert (Hp' : blank (SUMMARY_PREFIX ++ a) = true)
    by (replace (SUMMARY_PREFIX ++ a) with p by (cbn [app] in Heq; congruence);
        done).
  rewrite blank_app in Hp'. by vm_compute in Hp'.
Qed.

(** X3. The retrieved evidence is blank, so that [fact_check] answers
    Insufficient Evidence without asking the model, exactly when the
    search gave no summary and at most one result has a content, which is
    whitespace only.  Two or more contents always give a non-blank
    evidence, even if each is whitespace only: the separators between them
    count. *)
Theorem evidence_blank_iff (resp : response) :
  strip (bundle resp).1 = [] <->
  present resp.(answer) = None /\ (texts resp = [] \/ texts resp = [[]]).
Proof.
  unfold bundle. rewrite collect_spec. cbn [fst].
  rewrite strip_nil, blank_cap, blank_join.
  unfold summary. destruct (present resp.(answer)) as [a |]; cbn [app].
  - split.
    + intros [[? | (p & Heq & Hp)] _]; [done |].
      assert (Hp' : blank (SUMMARY_PREFIX ++ a) = true)
        by (replace (SUMMARY_PREFIX ++ a) with p by congruence; done).
      rewrite blank_app in Hp'. by vm_compute in Hp'.
    + by intros [? _].
  - split.
    + intros [[Ht | (p & Ht & Hp)] _]; (split; [done |]); [by left | right].
      pose proof (texts_stripped resp) as Hs. rewrite Ht in Hs |- *.
      f_equal. by apply (Forall_inv Hs).
    + intros [_ [-> | ->]]; (split; [| by vm_compute]); [by left | right].
      by exists [].
Qed.


(** X4. When the search gives a non-empty answer, the evidence is never
    blank: on a cache miss [fact_check] asks the model, once, with a
    request built from the claim and that evidence, directly after the
    search. *)
Theorem summary_reaches_model
    (E : env) (s : state) (claim : str) (user_id : Z) (resp : response) (a : str) :
  s.(fact_cache) !! claim = None ->
  E.(tavily) (s.(log) ++ [CacheGet claim]) claim = SearchOk resp ->
  resp.(answer) = Some a -> a <> [] ->
  exists rest,
    new_events s (fact_check claim user_id E s).2
    = CacheGet claim :: TavilySearch claim
      :: ResponsesCreate (mk_request claim (bundle resp).1 user_id) :: rest
    /\ Forall (fun ev => provider_call ev = false) rest.
Proof.
  intros Hmiss Hok Ha Hne.
  assert (Hp : present resp.(answer) = Some a).
  { rewrite Ha. by destruct a. }
  pose proof (summary_not_blank resp a Hp) as Hev.
  rewrite fact_check_run, Hmiss. cbv zeta. cbn [emit log]. rewrite Hok.
  cbn [retrieved]. destruct (bundle resp) as [evidence urls]. cbn [fst] in *.
  destruct (strip evidence) eqn:Hs; [done |]. cbn [truthy negb].
  destruct (E.(openai) _ _); eexists;
    (split; [apply new_events_app; unfold stored; cbn [snd emit log];
             rewrite <- !app_assoc; reflexivity |]);
    by repeat constructor.
Qed.

(** ** One orchestrator call *)

(** X5. A call of [fact_check] looks the claim up, and on a miss searches
    once; it asks the model at most once, only after the search and only
    with a non-blank evidence of at most 6016 characters, and never
    retries; a cache write, if any, is the last thing it does. *)
Theorem fact_check_calls (E : env) (s : state) (claim : str) (user_id : Z) :
  let evs := new_events s (fact_check claim user_id E s).2 in
  (is_Some (s.(fact_cache) !! claim) /\ evs = [CacheGet claim])
  \/ (s.(fact_cache) !! claim = None
      /\ (evs = [CacheGet claim; TavilySearch claim]
          \/ exists evidence,
               strip evidence <> [] /\ len evidence <= 6016
               /\ (evs = [CacheGet claim; TavilySearch claim;
                          ResponsesCreate (mk_request claim evidence user_id)]
                   \/ exists verdict,
                        evs = [CacheGet claim; TavilySearch claim;
                               ResponsesCreate (mk_request claim evidence user_id);
                               CacheSet claim verdict]))).
Proof.
  cbv zeta. rewrite fact_check_run. cbv zeta.
  destruct (s.(fact_cache) !! claim) as [v |] eqn:Hc.
  { left. split; [by eexists | by apply new_events_app]. }
  right. split; [done |]. cbn [emit log].
  pose proof (len_retrieved (E.(tavily) (s.(log) ++ [CacheGet claim]) claim)) as Hlen.
  destruct (retrieved _) as [evidence urls]. cbn [fst] in Hlen.
  destruct (strip evidence) eqn:Hs; cbn [truthy negb].
  { left. apply new_events_app. cbn. by rewrite <- app_assoc. }
  right. exists evidence. rewrite Hs. split; [done |]. split; [exact Hlen |].
  destruct (E.(openai) _ _); [right; eexists | left | left];
    apply new_events_app; unfold stored; cbn [snd emit log];
    by rewrite <- !app_assoc.
Qed.

(** ** One handled message *)

Lemma handle_message_shape E s upd now :
  let user_id := upd.(effective_user_id) in
  let s' := (handle_message upd now E s).2 in
  (valid upd = false /\ exists msg, s' = emit (ReplyText msg) s)
  \/ (valid upd = true
      /\ (now - last_accepted s user_id < RATE_LIMIT_SECONDS)%Q
      /\ s' = emit (ReplyText MSG_WAIT) (rate_get user_id E s).2)
  \/ (valid upd = true
      /\ (RATE_LIMIT_SECONDS <= now - last_accepted s user_id)%Q
      /\ exists pre post,
           Forall transport pre /\ Forall transport post
           /\ let s1 := emits (SendAction :: pre)
                          (rate_set user_id now E (rate_get user_id E s).2).2 in
              s' = s1
              \/ s' = emits post (fact_check (claim_of upd) user_id E s1).2).
Proof.
  cbv zeta. destruct (valid upd) eqn:Hv.
  2:{ left. split; [done |].
      destruct (handle_message_rejected_run E s upd now Hv) as (msg & o & ->).
      by exists msg. }
  right. rewrite (handle_message_valid _ _ _ _ Hv). cbv zeta.
  destruct (Qlt_le_dec _ _) as [Hlt | Hle]; [left | right].
  - split; [done |]. split; [done |]. unfold reply_text.
    by destruct (telegram_call_run E (rate_get upd.(effective_user_id) E s).2
                   (ReplyText MSG_WAIT)) as (o & -> & _).
  - split; [done |]. split; [done |].
    destruct (serve_run E (rate_set upd.(effective_user_id) now E
                             (rate_get upd.(effective_user_id) E s).2).2
                (claim_of upd) upd.(effective_user_id))
      as (pre & post & Hpre & Hpost & H).
    exists pre, post. by repeat split.
Qed.

Lemma fact_check_log E s claim user_id :
  (fact_check claim user_id E s).2.(log)
  = s.(log) ++ new_events s (fact_check claim user_id E s).2.
Proof.
  destruct (fact_check_frame E s claim user_id) as (_ & rest & Hl & _).
  by rewrite (new_events_app _ _ _ Hl).
Qed.

Lemma rate_gate_log E s user_id now :
  (rate_set user_id now E (rate_get user_id E s).2).2.(log)
  = s.(log) ++ [RateGet user_id; RateSet user_id now].
Proof.
  destruct (rate_get_state E s user_id) as (_ & Hl & _).
  cbn [rate_set snd emit log]. rewrite Hl. by rewrite <- app_assoc.
Qed.

(** The events of a handled message: rate-state accesses and transport
    calls around the events of at most one orchestrator call. *)
Lemma handle_message_log E s upd now :
  exists before inner after,
    new_events s (handle_message upd now E s).2 = before ++ inner ++ after
    /\ Forall (fun ev => orchestrated (claim_of upd) ev -> False) before
    /\ Forall transport after
    /\ (inner = []
        \/ valid upd = true
           /\ exists s1,
                inner = new_events s1
                          (fact_check (claim_of upd) upd.(effective_user_id) E s1).2).
Proof.
  destruct (handle_message_shape E s upd now)
    as [(_ & msg & ->) | [(_ & _ & ->) | (Hv & _ & pre & post & Hpre & Hpost & H)]].
  - exists [ReplyText msg], [], []. split; [by apply new_events_app |].
    split; [| split; [done | by left]]. by repeat constructor.
  - exists [RateGet upd.(effective_user_id); ReplyText MSG_WAIT], [], [].
    destruct (rate_get_state E s upd.(effective_user_id)) as (_ & Hl & _).
    split; [apply new_events_app; cbn [emit log]; by rewrite Hl, <- app_assoc |].
    split; [| split; [done | by left]]. by repeat constructor.
  - cbv zeta in H.
    set (user_id := upd.(effective_user_id)) in *.
    assert (Hbefore : Forall (fun ev => orchestrated (claim_of upd) ev -> False)
              ([RateGet user_id; RateSet user_id now] ++ SendAction :: pre)).
    { apply Forall_app. split; [by repeat constructor |].
      constructor; [by cbn |]. eapply Forall_impl; [exact Hpre |]. by intros []. }
    exists ([RateGet user_id; RateSet user_id now] ++ SendAction :: pre).
    destruct H as [-> | ->].
    + exists [], []. split.
      { apply new_events_app. cbn [emits log app]. rewrite rate_gate_log.
        by rewrite app_nil_r, <- !app_assoc. }
      split; [exact Hbefore |]. split; [done | by left].
    + set (s1 := emits (SendAction :: pre)
                   (rate_set user_id now E (rate_get user_id E s).2).2).
      exists (new_events s1 (fact_check (claim_of upd) user_id E s1).2), post.
      split.
      { apply new_events_app. cbn [emits log]. rewrite fact_check_log.
        subst s1. cbn [emits log]. rewrite rate_gate_log.
        by rewrite <- !app_assoc. }
      split; [exact Hbefore |]. split; [exact Hpost |]. right.
      split; [exact Hv |]. by exists s1.
Qed.

Lemma fact_check_request E s claim user_id req :
  In (ResponsesCreate req) (new_events s (fact_check claim user_id E s).2) ->
  exists evidence,
    req = mk_request claim evidence user_id
    /\ strip evidence <> []
    /\ len evidence <= MAX_EVIDENCE_LEN + len TRUNCATION_MARKER.
Proof.
  rewrite fact_check_run. cbv zeta.
  destruct (s.(fact_cache) !! claim) as [v |] eqn:Hc.
  { erewrite new_events_app; [| reflexivity]. cbn. by intros [? | ?]. }
  cbn [emit log].
  pose proof (len_retrieved (E.(tavily) (s.(log) ++ [CacheGet claim]) claim)) as Hlen.
  destruct (retrieved _) as [evidence urls]. cbn [fst] in Hlen.
  destruct (strip evidence) eqn:Hs; cbn [truthy negb].
  { erewrite new_events_app; [| cbn; by rewrite <- app_assoc].
    cbn. by intros [? | [? | ?]]. }
  intros Hin. exists evidence. rewrite Hs. split; [| by split].
  destruct (E.(openai) _ _);
    (erewrite new_events_app in Hin;
     [| unfold stored; cbn [snd emit log]; by rewrite <- !app_assoc]);
    cbn in Hin; intuition congruence.
Qed.

Lemma len_user_content (claim evidence : str) (user_id : Z) :
  len (mk_request claim evidence user_id).(user_content)
  = len claim + len evidence + 19.
Proof.
  cbn [mk_request user_content]. rewrite !len_app.
  assert (len (lit ("Claim:" ++ nl)) = 7) as -> by reflexivity.
  assert (len (lit (nl ++ nl ++ "Evidence:" ++ nl)) = 12) as -> by reflexivity.
  lia.
Qed.

(** X6. Every request sent to the model while a message is handled comes
    from a message that passed validation; it names the fixed model, with
    temperature 0 and at most 600 output tokens, carries the sender's
    user id, and its user content is the claim and a non-blank evidence in
    the fixed frame, at most 6535 characters in all. *)
Theorem model_request_bounded
    (E : env) (s : state) (upd : update) (now : Q) (req : request) :
  In (ResponsesCreate req) (new_events s (handle_message upd now E s).2) ->
  valid upd = true
  /\ req.(model) = GPT_MODEL /\ req.(temperature) = 0
  /\ req.(max_output_tokens) = 600
  /\ req.(system_content) = SYSTEM_PROMPT
  /\ req.(metadata_user_id) = upd.(effective_user_id)
  /\ (exists evidence,
        strip evidence <> []
        /\ req.(user_content)
           = lit ("Claim:" ++ nl) ++ claim_of upd
             ++ lit (nl ++ nl ++ "Evidence:" ++ nl) ++ evidence)
  /\ len req.(user_content) <= 6535.
Proof.
  intros Hin.
  destruct (handle_message_log E s upd now)
    as (before & inner & after & Hlog & Hb & Ha & Hinner).
  rewrite Hlog, !in_app_iff in Hin. destruct Hin as [Hin | [Hin | Hin]].
  - rewrite Forall_forall in Hb. destruct (Hb _ (proj2 (list_elem_of_In _ _) Hin)).
    exact I.
  - destruct Hinner as [-> | (Hv & s1 & ->)]; [done |].
    apply fact_check_request in Hin as (evidence & -> & Hev & Hlen).
    split; [exact Hv |]. repeat (split; [reflexivity |]).
    split; [by exists evidence |].
    rewrite len_user_content. apply valid_spec in Hv as [_ Hc].
    assert (len TRUNCATION_MARKER = 16) by reflexivity.
    unfold MAX_INPUT_LEN, MAX_EVIDENCE_LEN in *. lia.
  - rewrite Forall_forall in Ha. destruct (Ha _ (proj2 (list_elem_of_In _ _) Hin)).
Qed.

Lemma fact_check_cache_miss E s claim user_id :
  (fact_check claim user_id E s).2.(fact_cache) = s.(fact_cache)
  \/ s.(fact_cache) !! claim = None
     /\ exists verdict,
          (fact_check claim user_id E s).2.(fact_cache)
          = <[claim := verdict]> s.(fact_cache).
Proof.
  rewrite fact_check_run. cbv zeta.
  destruct (s.(fact_cache) !! claim); [by left |].
  destruct (retrieved _) as [evidence urls].
  destruct (negb _); [by left |].
  destruct (E.(openai) _ _) as [output_text | |]; [| by left | by left].
  right. split; [done |]. by eexists.
Qed.

(** A handled message leaves the cache alone or fills the missing entry of
    its claim, and only when the message passed validation. *)
Lemma handle_message_cache_miss E s upd now :
  (handle_message upd now E s).2.(fact_cache) = s.(fact_cache)
  \/ valid upd = true
     /\ s.(fact_cache) !! claim_of upd = None
     /\ exists verdict,
          (handle_message upd now E s).2.(fact_cache)
          = <[claim_of upd := verdict]> s.(fact_cache).
Proof.
  destruct (handle_message_shape E s upd now)
    as [(_ & msg & ->) | [(_ & _ & ->) | (Hv & _ & pre & post & _ & _ & H)]].
  - by left.
  - left. cbn [emit fact_cache].
    by destruct (rate_get_state E s upd.(effective_user_id)) as (-> & _).
  - cbv zeta in H.
    assert (Hc : forall evs,
              (emits evs (rate_set upd.(effective_user_id) now E
                            (rate_get upd.(effective_user_id) E s).2).2).(fact_cache)
              = s.(fact_cache)).
    { intros evs. cbn.
      by destruct (rate_get_state E s upd.(effective_user_id)) as (-> & _). }
    destruct H as [-> | ->]; [left; apply Hc |].
    cbn [emits fact_cache].
    destruct (fact_check_cache_miss E
                (emits (SendAction :: pre)
                   (rate_set upd.(effective_user_id) now E
                      (rate_get upd.(effective_user_id) E s).2).2)
                (claim_of upd) upd.(effective_user_id))
      as [-> | (Hmiss & v & ->)].
    + left. apply Hc.
    + right. rewrite Hc in *. split; [exact Hv |]. split; [exact Hmiss |].
      by exists v.
Qed.

(** X7. Handling a message never removes or overwrites a cache entry:
    every entry present before is present, with the same verdict, after.
    At most one entry is added, under the claim of the message. *)
Theorem cache_entries_are_kept (E : env) (s : state) (upd : update) (now : Q) :
  let s' := (handle_message upd now E s).2 in
  (forall claim verdict,
     s.(fact_cache) !! claim = Some verdict ->
     s'.(fact_cache) !! claim = Some verdict)
  /\ (forall claim,
        s.(fact_cache) !! claim = None -> is_Some (s'.(fact_cache) !! claim) ->
        claim = claim_of upd).
Proof.
  cbv zeta.
  destruct (handle_message_cache_miss E s upd now) as [-> | (_ & Hmiss & v & ->)].
  - split; [done |]. intros claim -> [? ?]. done.
  - split.
    + intros claim verdict Hlook.
      rewrite lookup_insert_ne; [done |]. intros <-. congruence.
    + intros claim Hnone Hsome.
      destruct (decide (claim_of upd = claim)) as [<- | Hne]; [done |].
      rewrite lookup_insert_ne, Hnone in Hsome by done. by destruct Hsome.
Qed.

(** ** The rate state *)

Lemma handle_message_rate E s upd now :
  let user_id := upd.(effective_user_id) in
  let s' := (handle_message upd now E s).2 in
  s'.(user_last_request) = s.(user_last_request)
  \/ s'.(user_last_request)
     = <[user_id := last_accepted s user_id]> s.(user_last_request)
  \/ (RATE_LIMIT_SECONDS <= now - last_accepted s user_id)%Q
     /\ s'.(user_last_request) = <[user_id := now]> s.(user_last_request).
Proof.
  cbv zeta.
  destruct (handle_message_shape E s upd now)
    as [(_ & msg & ->) | [(_ & _ & ->) | (Hv & Hle & _)]].
  - by left.
  - right. left. cbn [emit user_last_request].
    by destruct (rate_get_state E s upd.(effective_user_id)) as (_ & _ & _ & _ & <-).
  - right. right. split; [exact Hle |].
    by destruct (gate_allows E s upd now Hv Hle) as [_ ->].
Qed.

(** X8. Handling a message of one user never touches the rate entry of
    another user. *)
Theorem rate_entries_of_others_untouched
    (E : env) (s : state) (upd : update) (now : Q) (other : Z) :
  other <> upd.(effective_user_id) ->
  (handle_message upd now E s).2.(user_last_request) !! other
  = s.(user_last_request) !! other.
Proof.
  intros Hne.
  destruct (handle_message_rate E s upd now) as [-> | [-> | [_ ->]]];
    [done | |]; by rewrite lookup_insert_ne.
Qed.

(** X9. The time stamp recorded for a user never goes back, even when the
    clock does: after a handled message it is the one read before, or the
    new reading, which is then at least 5 seconds later. *)
Theorem rate_state_never_rewound
    (E : env) (s : state) (upd : update) (now : Q) (user_id : Z) :
  let s' := (handle_message upd now E s).2 in
  (last_accepted s user_id <= last_accepted s' user_id)%Q
  /\ (last_accepted s' user_id = last_accepted s user_id
      \/ user_id = upd.(effective_user_id)
         /\ last_accepted s' user_id = now
         /\ (last_accepted s user_id + RATE_LIMIT_SECONDS <= now)%Q).
Proof.
  cbv zeta.
  assert (Hcases :
    last_accepted (handle_message upd now E s).2 user_id = last_accepted s user_id
    \/ user_id = upd.(effective_user_id)
       /\ last_accepted (handle_message upd now E s).2 user_id = now
       /\ (last_accepted s user_id + RATE_LIMIT_SECONDS <= now)%Q).
  { unfold last_accepted at 1 3.
    destruct (handle_message_rate E s upd now) as [-> | [-> | [Hle ->]]].
    - by left.
    - left. destruct (decide (upd.(effective_user_id) = user_id)) as [<- | Hne].
      + by rewrite lookup_insert_eq.
      + by rewrite lookup_insert_ne.
    - destruct (decide (upd.(effective_user_id) = user_id)) as [<- | Hne].
      + right. rewrite lookup_insert_eq. split; [done |]. split; [done |].
        unfold RATE_LIMIT_SECONDS in *. lra.
      + left. by rewrite lookup_insert_ne. }
  split; [| exact Hcases].
  destruct Hcases as [-> | (_ & -> & Hle)]; [apply Qle_refl |].
  unfold RATE_LIMIT_SECONDS in Hle. lra.
Qed.

(** X10. Requests turned away by the gate do not prolong the cooldown:
    after an accepted request at [t0], a request less than 5 seconds later
    is rejected, and the next one is accepted as soon as 5 seconds have
    passed since [t0], however short the time since the rejected one. *)
Theorem rejected_requests_do_not_prolong
    (E : env) (s : state) (upd0 upd1 upd2 : update) (t0 t1 t2 : Q) :
  valid upd0 = true -> valid upd1 = true -> valid upd2 = true ->
  upd1.(effective_user_id) = upd0.(effective_user_id) ->
  upd2.(effective_user_id) = upd0.(effective_user_id) ->
  (RATE_LIMIT_SECONDS <= t0 - last_accepted s upd0.(effective_user_id))%Q ->
  (t1 - t0 < RATE_LIMIT_SECONDS)%Q ->
  (RATE_LIMIT_SECONDS <= t2 - t0)%Q ->
  let user_id := upd0.(effective_user_id) in
  let s0 := (handle_message upd0 t0 E s).2 in
  let s1 := (handle_message upd1 t1 E s0).2 in
  let s2 := (handle_message upd2 t2 E s1).2 in
  allowed user_id t0 s s0 /\ rejected user_id s0 s1 /\ allowed user_id t2 s1 s2.
Proof.
  intros Hv0 Hv1 Hv2 Hu1 Hu2 H0 H1 H2. cbv zeta.
  pose proof (gate_allows E s upd0 t0 Hv0 H0) as Ha0.
  pose proof (allowed_last_accepted _ _ _ _ Ha0) as Hl0.
  assert (Hr1 : rejected upd0.(effective_user_id) (handle_message upd0 t0 E s).2
                  (handle_message upd1 t1 E (handle_message upd0 t0 E s).2).2).
  { rewrite <- Hu1. apply gate_rejects; [done |]. by rewrite Hu1, Hl0. }
  split; [exact Ha0 |]. split; [exact Hr1 |].
  rewrite <- Hu2. apply gate_allows; [done |].
  destruct Hr1 as (_ & _ & Hsame & _). by rewrite Hu2, Hsame, Hl0.
Qed.

(** ** What leaves the handler *)

Lemma telegram_call_outcome E s ev :
  transport ev ->
  exists o, telegram_call ev E s = (o, emit ev s)
            /\ returned_or_transport_error E o.
Proof.
  intros Hev. unfold telegram_call.
  destruct (E.(telegram) _ _) as [what |] eqn:Ht; eexists; (split; [done |]).
  - right. by exists what, s.(log), ev.
  - by left.
Qed.

Lemma serve_outcome E s claim user_id :
  returned_or_transport_error E (serve claim user_id E s).1.
Proof.
  unfold serve.
  unfold mbind at 1, M_bind at 1, send_action.
  destruct (telegram_call_outcome E s SendAction I) as (o1 & -> & [-> | H1]).
  2:{ destruct H1 as (w & l & ev & ? & ? & ->). right. by exists w, l, ev. }
  unfold mbind at 1, M_bind at 1, reply_text.
  destruct (telegram_call_outcome E (emit SendAction s) (ReplyText MSG_THINKING) I)
    as (o2 & -> & [-> | H2]).
  2:{ destruct H2 as (w & l & ev & ? & ? & ->). right. by exists w, l, ev. }
  unfold try_except, mbind, M_bind, wait_for, edit_text.
  destruct (fact_check claim user_id E _) as [[r | e] s3].
  - destruct (telegram_call_outcome E s3 (EditText r) I) as (o4 & -> & [-> | H4]).
    + by left.
    + destruct H4 as (w & l & ev & _ & _ & ->).
      by destruct (telegram_call_outcome E (emit (EditText r) s3)
                     (EditText MSG_ERROR) I) as (o5 & -> & H5).
  - destruct e as [w | |].
    + by destruct (telegram_call_outcome E s3 (EditText MSG_ERROR) I)
        as (o5 & -> & H5).
    + by destruct (telegram_call_outcome E s3 (EditText MSG_TIMEOUT) I)
        as (o5 & -> & H5).
    + by destruct (telegram_call_outcome E s3 (EditText MSG_TIMEOUT) I)
        as (o5 & -> & H5).
Qed.

Lemma handle_message_outcome E s upd now :
  returned_or_transport_error E (handle_message upd now E s).1.
Proof.
  destruct (valid upd) eqn:Hv.
  - rewrite (handle_message_valid _ _ _ _ Hv). cbv zeta.
    destruct (Qlt_le_dec _ _).
    + unfold reply_text.
      by destruct (telegram_call_outcome E
                     (rate_get upd.(effective_user_id) E s).2
                     (ReplyText MSG_WAIT) I) as (o & -> & Ho).
    + apply serve_outcome.
  - assert (Hrun : exists msg, handle_message upd now E s = reply_text msg E s).
    { destruct (claim_of upd) as [| c cs] eqn:Hc.
      - exists MSG_INVALID. by apply handle_message_invalid.
      - exists MSG_TOO_LONG. apply handle_message_too_long; rewrite Hc; [done |].
        destruct (Z_le_gt_dec (len (c :: cs)) MAX_INPUT_LEN) as [Hle |]; [| done].
        assert (valid upd = true); [| congruence].
        apply valid_spec. by rewrite Hc. }
    destruct Hrun as [msg ->]. unfold reply_text.
    by destruct (telegram_call_outcome E s (ReplyText msg) I) as (o & -> & Ho).
Qed.

(** X11. No failure of the search or the model leaves the handler.  An
    update without a message or without a user makes it raise
    [AttributeError] on lines 163-164, before any call and with the state
    as it was.  For every other update the handler returns, whatever the
    search and the model do, fail or time out, unless a Telegram call
    outside the [try] block or inside an [except] clause raised; with a
    transport that never raises it always returns. *)
Theorem handler_contains_provider_failures
    (E : env) (s : state) (u : telegram_update) (now : Q) :
  (u.(upd_message) = None \/ u.(upd_effective_user) = None ->
   handle_update u now E s = (Raise AttributeError, s))
  /\ forall text user_id,
       u.(upd_message) = Some text -> u.(upd_effective_user) = Some user_id ->
       handle_update u now E s
       = handle_message {| message_text := text; effective_user_id := user_id |}
           now E s
       /\ returned_or_transport_error E (handle_update u now E s).1
       /\ (reliable E -> (handle_update u now E s).1 = Return tt).
Proof.
  split.
  - unfold handle_update. intros [-> | Hu]; [reflexivity |].
    rewrite Hu. by destruct u.(upd_message).
  - intros text user_id Hm Hu.
    assert (Hrun : handle_update u now E s
                   = handle_message
                       {| message_text := text; effective_user_id := user_id |}
                       now E s)
      by (unfold handle_update; by rewrite Hm, Hu).
    split; [exact Hrun |]. rewrite Hrun.
    pose proof (handle_message_outcome E s
                  {| message_text := text; effective_user_id := user_id |} now)
      as H.
    split; [exact H |]. intros Hrel.
    destruct H as [H | (what & l & ev & _ & Ht & _)]; [exact H |].
    rewrite Hrel in Ht. discriminate.
Qed.

Lemma telegram_call_reliable E s ev :
  reliable E -> telegram_call ev E s = (Return tt, emit ev s).
Proof. intros H. unfold telegram_call. by rewrite H. Qed.

Lemma fact_check_outcome E s claim user_id :
  (exists verdict, (fact_check claim user_id E s).1 = Return verdict)
  \/ (fact_check claim user_id E s).1 = Raise CancelledError
     /\ (fact_check claim user_id E s).2.(fact_cache) = s.(fact_cache)
     /\ exists l req, E.(openai) l req = ModelDeadline.
Proof.
  rewrite fact_check_run. cbv zeta.
  destruct (s.(fact_cache) !! claim); [left; by eexists |].
  destruct (retrieved _) as [evidence urls].
  destruct (negb _); [left; by eexists |].
  destruct (E.(openai) _ _) eqn:Hm; [left; by eexists | left; by eexists |].
  right. split; [done |]. split; [done |]. by eexists _, _.
Qed.

Lemma accepted_run E s upd now :
  valid upd = true ->
  (RATE_LIMIT_SECONDS <= now - last_accepted s upd.(effective_user_id))%Q ->
  handle_message upd now E s
  = serve (claim_of upd) upd.(effective_user_id) E
      (rate_set upd.(effective_user_id) now E
         (rate_get upd.(effective_user_id) E s).2).2.
Proof.
  intros Hv Hle. rewrite (handle_message_valid _ _ _ _ Hv). cbv zeta.
  by destruct (Qlt_le_dec _ _) as [Hlt | _]; [apply Qlt_not_le in Hlt |].
Qed.

Lemma serve_reliable E s claim user_id :
  reliable E ->
  let fc := fact_check claim user_id E
              (emits [SendAction; ReplyText MSG_THINKING] s) in
  serve claim user_id E s = (Return tt, emit (EditText (final_text fc.1)) fc.2).
Proof.
  intros Hrel. cbv zeta. unfold serve.
  unfold mbind at 1, M_bind at 1, send_action.
  rewrite (telegram_call_reliable _ _ _ Hrel).
  unfold mbind at 1, M_bind at 1, reply_text.
  rewrite (telegram_call_reliable _ _ _ Hrel).
  rewrite (emit_as_emits SendAction s), emit_emits. cbn [app].
  unfold try_except, mbind, M_bind, wait_for, edit_text.
  destruct (fact_check claim user_id E _) as [[r | [w | |]] s3];
    cbn [fst snd final_text]; by rewrite ?(telegram_call_reliable _ _ _ Hrel).
Qed.

(** X12. With a transport that never raises, an accepted request is
    served in exactly this order: the rate entry is read and written, the
    typing action and the placeholder are sent, [fact_check] runs once,
    and the placeholder is edited once.  The text of that edit is the
    text [fact_check] returned or, when the model call outlasted the
    deadline, the timeout message; in that case the cache is as it was
    before the message. *)
Theorem accepted_request_run (E : env) (s : state) (upd : update) (now : Q) :
  reliable E ->
  valid upd = true ->
  (RATE_LIMIT_SECONDS <= now - last_accepted s upd.(effective_user_id))%Q ->
  let user_id := upd.(effective_user_id) in
  let s1 := emits [SendAction; ReplyText MSG_THINKING]
              (rate_set user_id now E (rate_get user_id E s).2).2 in
  let fc := fact_check (claim_of upd) user_id E s1 in
  handle_message upd now E s = (Return tt, emit (EditText (final_text fc.1)) fc.2)
  /\ new_events s (handle_message upd now E s).2
     = [RateGet user_id; RateSet user_id now; SendAction; ReplyText MSG_THINKING]
       ++ new_events s1 fc.2 ++ [EditText (final_text fc.1)]
  /\ ((exists verdict, fc.1 = Return verdict /\ final_text fc.1 = verdict)
      \/ fc.1 = Raise CancelledError /\ final_text fc.1 = MSG_TIMEOUT
         /\ (handle_message upd now E s).2.(fact_cache) = s.(fact_cache)).
Proof.
  intros Hrel Hv Hle. cbv zeta.
  pose proof (serve_reliable E
                (rate_set upd.(effective_user_id) now E
                   (rate_get upd.(effective_user_id) E s).2).2
                (claim_of upd) upd.(effective_user_id) Hrel) as Hrun.
  cbv zeta in Hrun. rewrite <- (accepted_run E s upd now Hv Hle) in Hrun.
  set (user_id := upd.(effective_user_id)) in *.
  set (s0 := (rate_set user_id now E (rate_get user_id E s).2).2) in *.
  split; [exact Hrun |]. rewrite Hrun. cbn [snd]. split.
  - apply new_events_app. cbn [emit log]. rewrite fact_check_log.
    cbn [emits log]. subst s0. rewrite rate_gate_log.
    by rewrite <- !app_assoc.
  - destruct (fact_check_outcome E (emits [SendAction; ReplyText MSG_THINKING] s0)
                (claim_of upd) user_id) as [(v & Hfc) | (Hfc & Hc & _)].
    + left. exists v. by rewrite Hfc.
    + right. rewrite Hfc. split; [done |]. split; [done |].
      cbn [emit fact_cache]. rewrite Hc. subst s0. cbn.
      by destruct (rate_get_state E s user_id) as (-> & _).
Qed.

(** X13. A cached claim costs no provider call, whoever asks: with a
    transport that never raises, an accepted message whose claim is in the
    cache is answered with the cached verdict after the cache lookup
    alone, and the cache stays as it was. *)
Theorem cached_claim_served_to_anyone
    (E : env) (s : state) (upd : update) (now : Q) (verdict : str) :
  reliable E ->
  valid upd = true ->
  (RATE_LIMIT_SECONDS <= now - last_accepted s upd.(effective_user_id))%Q ->
  s.(fact_cache) !! claim_of upd = Some verdict ->
  let user_id := upd.(effective_user_id) in
  let s' := (handle_message upd now E s).2 in
  new_events s s'
  = [RateGet user_id; RateSet user_id now; SendAction; ReplyText MSG_THINKING;
     CacheGet (claim_of upd); EditText verdict]
  /\ s'.(fact_cache) = s.(fact_cache).
Proof.
  intros Hrel Hv Hle Hhit. cbv zeta.
  set (user_id := upd.(effective_user_id)).
  set (s0 := (rate_set user_id now E (rate_get user_id E s).2).2).
  assert (Hc0 : s0.(fact_cache) = s.(fact_cache)).
  { subst s0. cbn. by destruct (rate_get_state E s user_id) as (-> & _). }
  rewrite (accepted_run E s upd now Hv Hle). fold user_id s0.
  rewrite (serve_reliable E s0 (claim_of upd) user_id Hrel). cbv zeta.
  rewrite (fact_check_hit E _ (claim_of upd) user_id verdict)
    by (cbn [emits fact_cache]; by rewrite Hc0).
  cbn [fst snd final_text]. split; [| exact Hc0].
  apply new_events_app. cbn [emit emits log]. subst s0.
  rewrite rate_gate_log. by rewrite <- !app_assoc.
Qed.

(** X14. A cached verdict that the transport refuses to deliver (an edit
    raises, as Telegram does on markup it cannot parse) is never fetched
    again: every accepted request for that claim is answered from the
    cache, the edit raises, and the handler falls back to the error
    message; no provider is called and the entry stays. *)
Theorem undeliverable_verdict_stays_cached
    (E : env) (s : state) (upd : update) (now : Q) (verdict what : str) :
  (forall l, E.(telegram) l (EditText verdict) = Some what) ->
  (forall l ev, ev <> EditText verdict -> E.(telegram) l ev = None) ->
  valid upd = true ->
  (RATE_LIMIT_SECONDS <= now - last_accepted s upd.(effective_user_id))%Q ->
  s.(fact_cache) !! claim_of upd = Some verdict ->
  let user_id := upd.(effective_user_id) in
  let s' := (handle_message upd now E s).2 in
  new_events s s'
  = [RateGet user_id; RateSet user_id now; SendAction; ReplyText MSG_THINKING;
     CacheGet (claim_of upd); EditText verdict; EditText MSG_ERROR]
  /\ s'.(fact_cache) !! claim_of upd = Some verdict.
Proof.
  intros Hbad Hgood Hv Hle Hhit. cbv zeta.
  set (user_id := upd.(effective_user_id)).
  set (s0 := (rate_set user_id now E (rate_get user_id E s).2).2).
  assert (Hc0 : s0.(fact_cache) = s.(fact_cache)).
  { subst s0. cbn. by destruct (rate_get_state E s user_id) as (-> & _). }
  assert (Hok : forall ev st, ev <> EditText verdict ->
            telegram_call ev E st = (Return tt, emit ev st)).
  { intros ev st Hne. unfold telegram_call. by rewrite (Hgood _ _ Hne). }
  assert (Hserve : (serve (claim_of upd) user_id E s0).2
                   = emits [SendAction; ReplyText MSG_THINKING;
                            CacheGet (claim_of upd); EditText verdict;
                            EditText MSG_ERROR] s0).
  { unfold serve.
    unfold mbind at 1, M_bind at 1, send_action. rewrite Hok by done.
    unfold mbind at 1, M_bind at 1, reply_text. rewrite Hok by done.
    unfold try_except, mbind, M_bind, wait_for, edit_text.
    rewrite (fact_check_hit E _ (claim_of upd) user_id verdict)
      by (cbn [emit fact_cache]; by rewrite Hc0).
    unfold telegram_call at 1. rewrite Hbad.
    destruct (telegram_call_run E
                (emit (EditText verdict)
                   (emit (CacheGet (claim_of upd))
                      (emit (ReplyText MSG_THINKING) (emit SendAction s0))))
                (EditText MSG_ERROR)) as (o & -> & _).
    cbn [snd]. unfold emit, emits. cbn. by rewrite <- !app_assoc. }
  rewrite (accepted_run E s upd now Hv Hle). fold user_id s0. rewrite Hserve.
  split.
  - apply new_events_app. cbn [emits log]. subst s0. rewrite rate_gate_log.
    by rewrite <- !app_assoc.
  - cbn [emits fact_cache]. by rewrite Hc0.
Qed.

(** ** Validation *)

Lemma claim_of_nil (upd : update) :
  claim_of upd = [] <->
  match upd.(message_text) with
  | None => True
  | Some text => blank text = true
  end.
Proof.
  unfold claim_of. destruct upd.(message_text) as [text |]; cbn.
  - apply strip_nil.
  - done.
Qed.

(** X15. The handler answers with the invalid-claim message, and does
    nothing else, exactly when the update has no text or a text of
    whitespace only. *)
Theorem invalid_reply_iff_blank (E : env) (s : state) (upd : update) (now : Q) :
  new_events s (handle_message upd now E s).2 = [ReplyText MSG_INVALID]
  <-> match upd.(message_text) with
      | None => True
      | Some text => blank text = true
      end.
Proof.
  rewrite <- claim_of_nil. split.
  - intros Hev. destruct (claim_of upd) as [| c cs] eqn:Hc; [done | exfalso].
    destruct (valid upd) eqn:Hv.
    + destruct (Qlt_le_dec (now - last_accepted s upd.(effective_user_id))
                  RATE_LIMIT_SECONDS) as [Hlt | Hle].
      * destruct (gate_rejects E s upd now Hv Hlt) as [H _]. congruence.
      * destruct (gate_allows E s upd now Hv Hle) as [[rest H] _]. congruence.
    + assert (Hlong : len (claim_of upd) > MAX_INPUT_LEN).
      { destruct (Z_le_gt_dec (len (claim_of upd)) MAX_INPUT_LEN); [| done].
        assert (valid upd = true); [| congruence].
        apply valid_spec. split; [by rewrite Hc | done]. }
      rewrite (handle_message_too_long E s upd now) in Hev
        by first [done | by rewrite Hc].
      unfold reply_text in Hev.
      destruct (telegram_call_run E s (ReplyText MSG_TOO_LONG)) as (o & Hrun & _).
      rewrite Hrun in Hev. cbn [snd] in Hev.
      erewrite new_events_app in Hev; [| reflexivity].
      injection Hev as Hev. by vm_compute in Hev.
  - intros Hc. rewrite (handle_message_invalid _ _ _ _ Hc). unfold reply_text.
    destruct (telegram_call_run E s (ReplyText MSG_INVALID)) as (o & -> & _).
    by apply new_events_app.
Qed.


(** ** The sources section *)

Lemma escape_char_markup (c : N) : existsb markup (escape_char c) = false.
Proof.
  unfold escape_char.
  destruct (c =? 38)%N eqn:H38; [reflexivity |].
  destruct (c =? 60)%N eqn:H60; [reflexivity |].
  destruct (c =? 62)%N eqn:H62; [reflexivity |].
  destruct (c =? 34)%N eqn:H34; [reflexivity |].
  destruct (c =? 39)%N eqn:H39; [reflexivity |].
  cbn. unfold markup. by rewrite H60, H62, H34, H39.
Qed.

Lemma escape_markup (s : str) : existsb markup (escape s) = false.
Proof.
  unfold escape. induction s as [| c s IH]; [reflexivity |].
  cbn [flat_map]. by rewrite existsb_app, escape_char_markup, IH.
Qed.

Lemma escape_plain (s : str) :
  existsb markup s = false -> existsb (N.eqb 38) s = false -> escape s = s.
Proof.
  unfold escape. induction s as [| c s IH]; [reflexivity |].
  cbn [existsb flat_map]. rewrite !orb_false_iff. intros [Hc Hs] [Ha Hs'].
  rewrite (IH Hs Hs'). unfold escape_char, markup in *.
  rewrite !orb_false_iff in Hc. destruct Hc as [[[H60 H62] H34] H39].
  rewrite N.eqb_sym in Ha. by rewrite Ha, H60, H62, H34, H39.
Qed.

(** X17. No URL can put markup into the reply: every line of the sources
    section is the bullet followed by the escaped URL, and contains none
    of the characters less-than, greater-than, double quote and single
    quote.  A URL without these and without an ampersand is shown as it
    is. *)
Theorem source_lines_carry_no_markup (urls : list str) (i : nat) (line : str) :
  source_lines urls !! i = Some line ->
  exists u,
    urls !! i = Some u
    /\ line = BULLET ++ escape u
    /\ existsb markup line = false
    /\ (existsb markup u = false -> existsb (N.eqb 38) u = false ->
        line = BULLET ++ u).
Proof.
  unfold source_lines. intros Hline.
  assert (Hu : exists u, urls !! i = Some u /\ line = BULLET ++ escape u).
  { revert i Hline. induction urls as [| u urls IH]; intros [| i] H;
      try discriminate.
    - injection H as <-. by exists u.
    - by apply IH. }
  destruct Hu as (u & Hu & ->). exists u. split; [exact Hu |].
  split; [done |]. split.
  - rewrite existsb_app, escape_markup. reflexivity.
  - intros H1 H2. by rewrite escape_plain.
Qed.

(** ** Start-up *)



(** ** The start command *)

(** X19. The start command is outside the rate limit: it replies whatever
    the rate state says and changes neither dictionary, so a message that
    follows it is let through or turned away by the gate exactly as it
    would have been without it. *)
Theorem start_is_not_rate_limited (E : env) (s : state) (upd : update) (now : Q) :
  valid upd = true ->
  let user_id := upd.(effective_user_id) in
  let s1 := (start E s).2 in
  let s2 := (handle_message upd now E s1).2 in
  new_events s s1 = [ReplyText MSG_WELCOME]
  /\ s1.(user_last_request) = s.(user_last_request)
  /\ s1.(fact_cache) = s.(fact_cache)
  /\ ((now - last_accepted s user_id < RATE_LIMIT_SECONDS)%Q -> rejected user_id s1 s2)
  /\ ((RATE_LIMIT_SECONDS <= now - last_accepted s user_id)%Q ->
      allowed user_id now s1 s2).
Proof.
  intros Hv. cbv zeta. unfold start, reply_text.
  destruct (telegram_call_run E s (ReplyText MSG_WELCOME)) as (o & -> & _).
  cbn [snd]. split; [by apply new_events_app |]. split; [done |]. split; [done |].
  split; intros H.
  - by apply gate_rejects.
  - by apply gate_allows.
Qed.

(** ** Witnesses *)

Lemma bundle_urls_and_texts_witness :
  search_web water env_moon initial
  = (Return (lit "The moon is composed of rock and dust.",
             [lit "https://example.com/moon"]),
     emit (TavilySearch water) initial).
Proof.
  apply (bundle_urls_and_texts env_moon initial water moon_response eq_refl).
Defined.

Lemma summary_reaches_model_witness :
  exists rest,
    new_events initial (fact_check water 7 env_summary initial).2
    = CacheGet water :: TavilySearch water
      :: ResponsesCreate (mk_request water (bundle summary_response).1 7) :: rest.
Proof.
  destruct (summary_reaches_model env_summary initial water 7 summary_response
              (lit "The moon is made of rock.") eq_refl eq_refl eq_refl
              ltac:(vm_compute; discriminate)) as (rest & H & _).
  by exists rest.
Defined.

Lemma model_request_bounded_witness :
  exists req,
    In (ResponsesCreate req)
       (new_events initial (handle_message cheese 1000 env_moon initial).2)
    /\ len req.(user_content) <= 6535.
Proof.
  exists (mk_request (claim_of cheese)
            (lit "The moon is composed of rock and dust.") 7).
  assert (Hin : In (ResponsesCreate
                      (mk_request (claim_of cheese)
                         (lit "The moon is composed of rock and dust.") 7))
                   (new_events initial
                      (handle_message cheese 1000 env_moon initial).2))
    by (vm_compute; tauto).
  split; [exact Hin |].
  apply (model_request_bounded env_moon initial cheese 1000 _ Hin).
Defined.

Lemma rate_entries_of_others_untouched_witness :
  (handle_message cheese 1000 env_moon initial).2.(user_last_request) !! 8
  = initial.(user_last_request) !! 8.
Proof.
  apply (rate_entries_of_others_untouched env_moon initial cheese 1000 8).
  vm_compute. discriminate.
Defined.

Lemma rejected_requests_do_not_prolong_witness :
  let s0 := (handle_message cheese 1000 env_moon initial).2 in
  let s1 := (handle_message cheese 1004 env_moon s0).2 in
  let s2 := (handle_message cheese 1005 env_moon s1).2 in
  allowed 7 1000 initial s0 /\ rejected 7 s0 s1 /\ allowed 7 1005 s1 s2.
Proof.
  apply (rejected_requests_do_not_prolong env_moon initial cheese cheese cheese
           1000 1004 1005 eq_refl eq_refl eq_refl eq_refl eq_refl);
    vm_compute; first [discriminate | reflexivity].
Defined.

Lemma accepted_request_run_witness :
  new_events initial (handle_message cheese 1000 env_model_slow initial).2
  = [RateGet 7; RateSet 7 1000; SendAction; ReplyText MSG_THINKING;
     CacheGet (claim_of cheese); TavilySearch (claim_of cheese);
     ResponsesCreate (mk_request (claim_of cheese)
                        (lit "The moon is composed of rock and dust.") 7);
     EditText MSG_TIMEOUT].
Proof.
  destruct (accepted_request_run env_model_slow initial cheese 1000)
    as (_ & Hev & _).
  - intros l ev. reflexivity.
  - reflexivity.
  - vm_compute. discriminate.
  - rewrite Hev. vm_compute. reflexivity.
Defined.

Lemma cached_claim_served_to_anyone_witness :
  let s := (handle_message cheese 1000 env_moon initial).2 in
  new_events s (handle_message (message "The moon is made of cheese" 8) 1001
                  env_down s).2
  = [RateGet 8; RateSet 8 1001; SendAction; ReplyText MSG_THINKING;
     CacheGet (claim_of cheese); EditText moon_verdict].
Proof.
  intros s.
  apply (cached_claim_served_to_anyone env_down s
           (message "The moon is made of cheese" 8) 1001 moon_verdict).
  - intros l ev. reflexivity.
  - reflexivity.
  - vm_compute. discriminate.
  - vm_compute. reflexivity.
Defined.

Lemma undeliverable_verdict_stays_cached_witness :
  let s := (handle_message cheese 1000 env_refusing initial).2 in
  new_events s (handle_message cheese 1010 env_refusing s).2
  = [RateGet 7; RateSet 7 1010; SendAction; ReplyText MSG_THINKING;
     CacheGet (claim_of cheese); EditText moon_verdict; EditText MSG_ERROR].
Proof.
  intros s.
  apply (undeliverable_verdict_stays_cached env_refusing s cheese 1010
           moon_verdict (lit "Bad Request")).
  - intros l. unfold env_refusing. cbn [telegram]. by rewrite decide_True.
  - intros l [] Hne; try reflexivity. unfold env_refusing. cbn [telegram].
    by destruct (decide (text = moon_verdict)) as [-> |].
  - reflexivity.
  - vm_compute. discriminate.
  - vm_compute. reflexivity.
Defined.


Lemma source_lines_carry_no_markup_witness :
  exists u,
    [lit "https://example.com/?q=<b>"] !! 0%nat = Some u
    /\ lit "https://example.com/?q=&lt;b&gt;" = escape u.
Proof.
  destruct (source_lines_carry_no_markup [lit "https://example.com/?q=<b>"] 0
              (BULLET ++ lit "https://example.com/?q=&lt;b&gt;") eq_refl)
    as (u & Hu & Hline & _).
  exists u. split; [exact Hu |]. by apply app_inv_head in Hline.
Defined.

Lemma start_is_not_rate_limited_witness :
  allowed 7 1000 (start env_moon initial).2
    (handle_message cheese 1000 env_moon (start env_moon initial).2).2.
Proof.
  apply (start_is_not_rate_limited env_moon initial cheese 1000 eq_refl).
  vm_compute. discriminate.
Defined.
